(** * EchoMind: the chart renderer of the result page

    A shallow embedding of the effect that [ChartCanvas]
    (client/src/pages/Result.jsx, kept in src/client/src/App.jsx) runs on
    its canvas, and the properties of the chart specification checked
    against it.

    Layout of the development:
    - [num]: the numbers of the language, with exact arithmetic;
    - [value]: the data a chart receives (what the analysis payload can
      hold), with the coercions the effect relies on;
    - [call], [M]: the calls made on the 2D context and the monad that
      logs them and carries an exception;
    - [render]: the body of the effect, statement by statement;
    - [paint]: what a log of calls puts on the surface, given the state
      the context was left in;
    - the readings of the specification, and the properties.

    What the model leaves out: rounding of doubles (every quantity of the
    two scenarios and of the counterexamples is a dyadic rational computed
    without rounding, so the model and the doubles agree on them), the
    sign of zero, properties inherited from prototypes, and code units
    above 255 in strings. *)

From Stdlib Require Import ZArith NArith QArith Qfield Qround Qabs.
From Stdlib Require Import List String Ascii Bool Lia Lqa.
From Stdlib Require Import DecimalString.
Import ListNotations.

Open Scope Z_scope.
Open Scope list_scope.

(** ** Numbers

    A number is NaN, an infinity, or a finite value.  A finite double is
    modelled by the rational it denotes and arithmetic on finite values
    is exact: rounding, overflow and the sign of zero are not modelled.
    Every operation returns its result in lowest terms, so that equal
    numbers are equal terms. *)

Inductive num : Type :=
| NaN
| Inf (negative : bool)
| Fin (q : Q).

Definition fin (q : Q) : num := Fin (Qred q).
Definition num_of_Z (z : Z) : num := Fin (inject_Z z).
Definition num_of_N (n : N) : num := num_of_Z (Z.of_N n).
Definition num_of_nat (n : nat) : num := num_of_Z (Z.of_nat n).

Definition Qis_zero (q : Q) : bool := Qnum q =? 0.
Definition Qis_neg (q : Q) : bool := Qnum q <? 0.

Definition num_add (a b : num) : num :=
  match a, b with
  | NaN, _ | _, NaN => NaN
  | Inf s, Inf s' => if Bool.eqb s s' then Inf s else NaN
  | Inf s, Fin _ | Fin _, Inf s => Inf s
  | Fin p, Fin q => fin (p + q)
  end.

Definition num_neg (a : num) : num :=
  match a with
  | NaN => NaN
  | Inf s => Inf (negb s)
  | Fin q => fin (- q)
  end.

Definition num_sub (a b : num) : num := num_add a (num_neg b).

Definition num_mul (a b : num) : num :=
  match a, b with
  | NaN, _ | _, NaN => NaN
  | Inf s, Inf s' => Inf (xorb s s')
  | Inf s, Fin q | Fin q, Inf s =>
      if Qis_zero q then NaN else Inf (xorb s (Qis_neg q))
  | Fin p, Fin q => fin (p * q)
  end.

(** A zero divisor is read as +0; the effect only ever divides by a
    positive count. *)
Definition num_div (a b : num) : num :=
  match a, b with
  | NaN, _ | _, NaN => NaN
  | Inf _, Inf _ => NaN
  | Inf s, Fin q => Inf (xorb s (Qis_neg q))
  | Fin _, Inf _ => Fin 0
  | Fin p, Fin q =>
      if Qis_zero q
      then (if Qis_zero p then NaN else Inf (Qis_neg p))
      else fin (p / q)
  end.

Definition num_finite (a : num) : bool :=
  match a with Fin _ => true | _ => false end.

Declare Scope num_scope.
Delimit Scope num_scope with num.
Bind Scope num_scope with num.
Infix "+" := num_add : num_scope.
Infix "-" := num_sub : num_scope.
Infix "*" := num_mul : num_scope.
Infix "/" := num_div : num_scope.

(** Integer literals of the source are read as numbers. *)
Coercion num_of_Z : Z >-> num.

(** ** Strings read as numbers (ToNumber on a String)

    Strings are sequences of code units below 256.  The reading follows
    the grammar of string numeric literals: surrounding white space is
    dropped, the empty string is 0, then a signed decimal literal with
    optional fraction and exponent, [Infinity], or an unsigned binary,
    octal or hexadecimal integer; anything else is NaN. *)

Definition is_white_space (c : ascii) : bool :=
  let n := nat_of_ascii c in
  existsb (Nat.eqb n) [9; 10; 11; 12; 13; 32; 160]%nat.

Fixpoint drop_white_space (l : list ascii) : list ascii :=
  match l with
  | c :: l' => if is_white_space c then drop_white_space l' else l
  | [] => []
  end.

Definition trim (l : list ascii) : list ascii :=
  rev (drop_white_space (rev (drop_white_space l))).

Definition digit_value (base : Z) (c : ascii) : option Z :=
  let n := Z.of_nat (nat_of_ascii c) in
  let d :=
    if (48 <=? n) && (n <=? 57) then Some (n - 48)
    else if (97 <=? n) && (n <=? 102) then Some (n - 87)
    else if (65 <=? n) && (n <=? 70) then Some (n - 55)
    else None in
  match d with
  | Some v => if v <? base then Some v else None
  | None => None
  end.

(** The value of [l] read in [base], when every character is a digit. *)
Fixpoint digits_value (base : Z) (l : list ascii) (acc : Z) : option Z :=
  match l with
  | [] => Some acc
  | c :: l' =>
      match digit_value base c with
      | Some d => digits_value base l' (acc * base + d)
      | None => None
      end
  end.

(** The leading decimal digits of [l] and what follows them. *)
Fixpoint span_digits (l : list ascii) : list ascii * list ascii :=
  match l with
  | c :: l' =>
      match digit_value 10 c with
      | Some _ => let (ds, rest) := span_digits l' in (c :: ds, rest)
      | None => ([], l)
      end
  | [] => ([], [])
  end.

Definition ten_pow (e : Z) : Q :=
  if e <? 0 then 1 # Z.to_pos (10 ^ (- e)) else inject_Z (10 ^ e).

Definition exponent_part (l : list ascii) : option Z :=
  match l with
  | [] => Some 0
  | c :: l' =>
      if (c =? "e")%char || (c =? "E")%char then
        let (neg, ds) :=
          match l' with
          | s :: l'' =>
              if (s =? "-")%char then (true, l'')
              else if (s =? "+")%char then (false, l'') else (false, l')
          | [] => (false, [])
          end in
        match ds with
        | [] => None
        | _ => match digits_value 10 ds 0 with
               | Some e => Some (if neg then - e else e)
               | None => None
               end
        end
      else None
  end.

Definition unsigned_decimal (l : list ascii) : option Q :=
  let (ip, rest) := span_digits l in
  let (fp, rest') :=
    match rest with
    | c :: r => if (c =? ".")%char then span_digits r else ([], rest)
    | [] => ([], [])
    end in
  match ip ++ fp with
  | [] => None
  | ds =>
      match digits_value 10 ds 0, exponent_part rest' with
      | Some m, Some e => Some (inject_Z m * ten_pow (e - Z.of_nat (List.length fp)))%Q
      | _, _ => None
      end
  end.

Definition Infinity_literal : list ascii := list_ascii_of_string "Infinity".

Definition signless_literal (l : list ascii) : num :=
  if list_eq_dec ascii_dec l Infinity_literal then Inf false
  else match unsigned_decimal l with
       | Some q => fin q
       | None => NaN
       end.

Definition radix_literal (l : list ascii) : option num :=
  match l with
  | z :: r :: ds =>
      if (z =? "0")%char then
        let base :=
          if (r =? "x")%char || (r =? "X")%char then Some 16
          else if (r =? "o")%char || (r =? "O")%char then Some 8
          else if (r =? "b")%char || (r =? "B")%char then Some 2
          else None in
        match base, ds with
        | Some b, _ :: _ =>
            Some (match digits_value b ds 0 with
                  | Some n => num_of_Z n
                  | None => NaN
                  end)
        | _, _ => None
        end
      else None
  | _ => None
  end.

Definition StringToNumber (s : string) : num :=
  match trim (list_ascii_of_string s) with
  | [] => num_of_Z 0
  | (c :: l') as l =>
      match radix_literal l with
      | Some n => n
      | None =>
          if (c =? "-")%char then num_neg (signless_literal l')
          else if (c =? "+")%char then signless_literal l'
          else signless_literal l
      end
  end.

(** ** Values

    What a chart can be handed: the values of the analysis payload, and
    [undefined] for a field the payload lacks.  An object is the list of
    its own properties in the order the language enumerates them, an
    array the list of its elements.  Reads see own properties only. *)

#[local] Set Warnings "-register-all".

Inductive value : Type :=
| VUndefined
| VNull
| VBool (b : bool)
| VNum (n : num)
| VStr (s : string)
| VArr (elems : list value)
| VObj (props : list (string * value)).

(** ToBoolean. *)
Definition truthy (v : value) : bool :=
  match v with
  | VUndefined | VNull => false
  | VBool b => b
  | VNum NaN => false
  | VNum (Inf _) => true
  | VNum (Fin q) => negb (Qis_zero q)
  | VStr s => negb (s =? EmptyString)%string
  | VArr _ | VObj _ => true
  end.

(** [typeof v === 'object'] *)
Definition typeof_object (v : value) : bool :=
  match v with
  | VNull | VArr _ | VObj _ => true
  | _ => false
  end.

(** [Array.isArray(v)] *)
Definition isArray (v : value) : bool :=
  match v with VArr _ => true | _ => false end.

(** [a || b] *)
Definition or_else (a b : value) : value := if truthy a then a else b.

(** The number an array element contributes when the array is turned
    into a string and that string is read back as a number. *)
Fixpoint joined_to_number (v : value) : num :=
  match v with
  | VUndefined | VNull => 0
  | VBool _ => NaN
  | VNum n => n
  | VStr s => StringToNumber s
  | VObj _ => NaN
  | VArr [] => 0
  | VArr [x] => joined_to_number x
  | VArr (_ :: _ :: _) => NaN
  end.

(** ToNumber. *)
Definition to_number (v : value) : num :=
  match v with
  | VUndefined => NaN
  | VNull => 0
  | VBool b => if b then 1 else 0
  | VNum n => n
  | VStr s => StringToNumber s
  | VObj _ => NaN
  | VArr _ => joined_to_number v
  end.

(** Names of indexed properties: the canonical decimal form of an index. *)
Definition index_name (n : N) : string :=
  NilZero.string_of_uint (N.to_uint n).

Definition index_of_name (s : string) : option N :=
  match NilZero.uint_of_string s with
  | Some d =>
      let n := N.of_uint d in
      if (index_name n =? s)%string then Some n else None
  | None => None
  end.

Definition index_names (len : nat) : list string :=
  map (fun i => index_name (N.of_nat i)) (seq 0 len).

Definition chars (s : string) : list value :=
  map (fun c => VStr (String c EmptyString)) (list_ascii_of_string s).

Fixpoint lookup (key : string) (props : list (string * value)) : value :=
  match props with
  | [] => VUndefined
  | (k, v) :: rest => if (k =? key)%string then v else lookup key rest
  end.

Definition element (key : string) (elems : list value) : value :=
  match index_of_name key with
  | Some i =>
      if (i <? N.of_nat (List.length elems))%N
      then nth (N.to_nat i) elems VUndefined else VUndefined
  | None =>
      if (key =? "length")%string
      then VNum (num_of_nat (List.length elems)) else VUndefined
  end.

(** ** Exceptions and the calls on the drawing context *)

Inductive exn : Type :=
| TypeError (what : string).

Inductive completion (A : Type) : Type :=
| Normal (a : A)
| Throw (e : exn).
Arguments Normal {A} a.
Arguments Throw {A} e.

(** The text of a label.  [toFixed] prints numbers of magnitude 1e21 and
    more in exponent notation; those digits are not modelled and the
    number is kept instead. *)
Inductive text : Type :=
| Plain (s : string)
| Exponential (q : Q).

Inductive call : Type :=
| clearRect (x y w h : num)
| set_strokeStyle (style : string)
| set_lineWidth (w : num)
| beginPath
| moveTo (x y : num)
| lineTo (x y : num)
| stroke
| set_fillStyle (style : string)
| fillRect (x y w h : num)
| set_font (font : string)
| fillText (t : text) (x y : num).

(** A computation logs the calls it makes on the context and completes
    normally or throws; what was logged before a throw stays logged. *)
Definition M (A : Type) : Type := (list call * completion A)%type.

Definition ret {A} (a : A) : M A := ([], Normal a).
Definition throw {A} (e : exn) : M A := ([], Throw e).
Definition ctx (c : call) : M unit := ([c], Normal tt).

Definition bind {A B} (m : M A) (f : A -> M B) : M B :=
  match m with
  | (log, Normal a) => let (log', r) := f a in (log ++ log', r)
  | (log, Throw e) => (log, Throw e)
  end.

Notation "x <- m ;; k" := (bind m (fun x => k))
  (at level 61, m at next level, right associativity).
Notation "m ;; k" := (bind m (fun _ => k))
  (at level 61, right associativity).

Definition calls {A} (m : M A) : list call := fst m.
Definition outcome {A} (m : M A) : completion A := snd m.

(** [l.forEach((a, i) => f a i)], counting from [i]. *)
Fixpoint forEach_from {A} (f : A -> nat -> M unit) (l : list A) (i : nat)
  : M unit :=
  match l with
  | [] => ret tt
  | a :: l' => f a i ;; forEach_from f l' (S i)
  end.

Definition forEach {A} (l : list A) (f : A -> nat -> M unit) : M unit :=
  forEach_from f l 0.

(** Every value but [undefined] and [null] can be asked for its keys and
    its properties. *)
Definition readable (v : value) : bool :=
  match v with VUndefined | VNull => false | _ => true end.

(** [Object.keys(v)]: the names of the own properties, in enumeration
    order; it throws on [undefined] and [null]. *)
Definition own_keys (v : value) : list string :=
  match v with
  | VStr s => index_names (String.length s)
  | VArr elems => index_names (List.length elems)
  | VObj props => map fst props
  | _ => []
  end.

Definition Object_keys (v : value) : M (list string) :=
  if readable v then ret (own_keys v)
  else throw (TypeError "Cannot convert undefined or null to object").

(** [v[key]]: reading a property of [undefined] or [null] throws. *)
Definition own (v : value) (key : string) : value :=
  match v with
  | VStr s => element key (chars s)
  | VArr elems => element key elems
  | VObj props => lookup key props
  | _ => VUndefined
  end.

Definition get (v : value) (key : string) : M value :=
  if readable v then ret (own v key)
  else throw (TypeError "Cannot read properties of undefined or null").

(** [Number.prototype.toFixed(2)]: the nearest multiple of 1/100, the
    larger one on a tie, with two digits after the point. *)
Definition pad3 (s : string) : string :=
  match String.length s with
  | 1%nat => ("00" ++ s)%string
  | 2%nat => ("0" ++ s)%string
  | _ => s
  end.

Definition toFixed2 (n : num) : text :=
  match n with
  | NaN => Plain "NaN"
  | Inf s => Plain (if s then "-Infinity" else "Infinity")
  | Fin q =>
      let a := Qabs q in
      if Qle_bool (inject_Z (10 ^ 21)) a then Exponential q
      else
        let hundredths := Qfloor (a * 100 + (1 # 2)) in
        let ds := pad3 (NilZero.string_of_uint (N.to_uint (Z.to_N hundredths))) in
        let k := (String.length ds - 2)%nat in
        Plain ((if Qis_neg q then "-" else EmptyString)
               ++ substring 0 k ds ++ "." ++ substring k 2 ds)%string
  end.

(** [val.toFixed(2)]: only a number has the method. *)
Definition toFixed_2 (val : value) : M text :=
  match val with
  | VNum n => ret (toFixed2 n)
  | _ => throw (TypeError "val.toFixed is not a function")
  end.

(** [key.replace(/_/g, ' ')] and [s.split(' ')[0]] *)
Fixpoint replace_underscores (s : string) : string :=
  match s with
  | EmptyString => EmptyString
  | String c s' =>
      String (if (c =? "_")%char then " "%char else c) (replace_underscores s')
  end.

Fixpoint split_space_first (s : string) : string :=
  match s with
  | EmptyString => EmptyString
  | String c s' =>
      if (c =? " ")%char then EmptyString else String c (split_space_first s')
  end.

(** ** The effect of [ChartCanvas]

    [canvasRef.current] is [None] before the canvas is mounted; the
    component mounts it 800 by 200. *)

Record canvas : Type := { width : N; height : N }.

Definition mounted : canvas := {| width := 800; height := 200 |}.

Definition colors : list string :=
  ["#7c5cff"; "#22c55e"; "#fbbf24"; "#ef4444"]%string.

(** [data[0]], [data.length] and the elements [data.forEach] visits, for
    [data] an array. *)
Definition elements (data : value) : list value :=
  match data with VArr elems => elems | _ => [] end.

Section Render.

Variable canvas : canvas.
Let W : num := num_of_N (width canvas).
Let H : num := num_of_N (height canvas).

(** Clear & Grid *)
Definition clear_and_grid : M unit :=
  ctx (clearRect 0 0 W H) ;;
  ctx (set_strokeStyle "rgba(255,255,255,0.1)") ;;
  ctx (set_lineWidth 1) ;;
  forEach (seq 0 5) (fun i _ =>
    let y := (20 + (H - 40) * (num_of_nat i / 4))%num in
    ctx beginPath ;; ctx (moveTo 0 y) ;; ctx (lineTo W y) ;; ctx stroke).

(** The callback of [data.forEach] in the line graph. *)
Definition plot_point (n : nat) (key : string) (point : value) (i : nat)
  : M unit :=
  let x := (num_of_nat i / (num_of_nat n - 1) * W)%num in
  v <- get point key ;;
  let val := or_else v (VNum 0) in
  let y := (H - 20 - to_number val * (H - 40))%num in
  if (i =? 0)%nat then ctx (moveTo x y) else ctx (lineTo x y).

(** The callback of [keys.forEach] in the line graph. *)
Definition plot_channel (frames : list value) (key : string) (idx : nat)
  : M unit :=
  ctx beginPath ;;
  ctx (set_strokeStyle (nth (idx mod List.length colors) colors EmptyString)) ;;
  ctx (set_lineWidth 2) ;;
  forEach frames (plot_point (List.length frames) key) ;;
  ctx stroke.

(** TYPE: MOTION LINE GRAPH *)
Definition motion (data : value) : M unit :=
  keys0 <- Object_keys (nth 0 (elements data) VUndefined) ;;
  let keys := filter (fun k => negb (k =? "time")%string) keys0 in
  forEach keys (plot_channel (elements data)).

(** The callback of [keys.forEach] in the bar chart. *)
Definition draw_bar (data : value) (barW : num) (key : string) (i : nat)
  : M unit :=
  v <- get data key ;;
  let val := or_else v (VNum 0) in
  let h := (to_number val * (H - 40))%num in
  let x := (10 + num_of_nat i * barW + 5)%num in
  let y := (H - 20 - h)%num in
  ctx (set_fillStyle "rgba(124,92,255,0.85)") ;;
  ctx (fillRect x y (barW - 10) h) ;;
  ctx (set_fillStyle "#fff") ;;
  ctx (set_font "11px sans-serif") ;;
  label <- toFixed_2 val ;;
  ctx (fillText label x (y - 6)) ;;
  ctx (set_fillStyle "rgba(255,255,255,0.6)") ;;
  ctx (set_font "10px sans-serif") ;;
  let label := split_space_first (replace_underscores key) in
  ctx (fillText (Plain label) x (H - 5)).

(** TYPE: BAR CHART *)
Definition bar (data : value) : M unit :=
  keys <- Object_keys data ;;
  if (List.length keys =? 0)%nat then ret tt
  else
    let barW := ((W - 20) / num_of_nat (List.length keys))%num in
    forEach keys (draw_bar data barW).

Definition chart_body (data : value) (type : string) : M unit :=
  if (type =? "motion")%string && isArray data
     && (1 <? List.length (elements data))%nat
  then motion data
  else if (type =? "bar")%string && typeof_object data
  then bar data
  else ret tt.

End Render.

(** The effect: [useEffect(() => { ... }, [data, type])]. *)
Definition render (canvasRef : option canvas) (data : value) (type : string)
  : M unit :=
  match canvasRef with
  | None => ret tt
  | Some canvas =>
      if negb (truthy data) then ret tt
      else clear_and_grid canvas ;; chart_body canvas data type
  end.

(** The component: [type] defaults to ['motion']. *)
Definition ChartCanvas (canvasRef : option canvas) (data : value)
    (type : option string) : M unit :=
  render canvasRef data
    (match type with Some t => t | None => "motion"%string end).

(** The inputs of the two scenarios of the specification. *)
Definition series_scenario : value :=
  VArr [VObj [("t", VNum 0); ("a", VNum 0); ("b", VNum 1)];
        VObj [("t", VNum 1); ("a", VNum 1); ("b", VNum 0)]]%string.

Definition categorical_scenario : value :=
  VObj [("openness", VNum (Fin (1 # 2))); ("pacing", VNum 1)]%string.

(** ** The drawing context

    The context keeps its styles and its current path from one call to
    the next, and from one run of the effect to the next.  [paint] reads
    a log of calls against that state and lists what reaches the
    surface.  Calls with a NaN or infinite coordinate are ignored, a
    rectangle with a zero side paints nothing, and only subpaths with two
    points or more are stroked.  The styles and fonts the effect assigns
    are all well formed, so an assignment always takes. *)

Definition point : Type := (num * num)%type.

Record context : Type := {
  strokeStyle : string;
  lineWidth : num;
  fillStyle : string;
  font : string;
  path : list (list point)
}.

Inductive mark : Type :=
| cleared (x y w h : num)
| stroked (style : string) (width : num) (subpaths : list (list point))
| filled (style : string) (x y w h : num)
| written (style font : string) (t : text) (x y : num).

Definition positive_width (w : num) : bool :=
  match w with
  | Fin q => negb (Qis_zero q) && negb (Qis_neg q)
  | _ => false
  end.

Definition is_zero (a : num) : bool :=
  match a with Fin q => Qis_zero q | _ => false end.

Definition proper_rect (x y w h : num) : bool :=
  num_finite x && num_finite y && num_finite w && num_finite h
  && negb (is_zero w) && negb (is_zero h).

(** [lineTo] on a path: a first point opens a subpath, a later one
    extends the last subpath. *)
Fixpoint extend (p : point) (subpaths : list (list point))
  : list (list point) :=
  match subpaths with
  | [] => [[p]]
  | [sp] => [sp ++ [p]]
  | sp :: rest => sp :: extend p rest
  end.

Definition visible (subpaths : list (list point)) : list (list point) :=
  filter (fun sp => (2 <=? List.length sp)%nat) subpaths.

Definition step (s : context) (c : call) : context * list mark :=
  match c with
  | clearRect x y w h =>
      (s, if proper_rect x y w h then [cleared x y w h] else [])
  | set_strokeStyle style =>
      ({| strokeStyle := style; lineWidth := lineWidth s;
          fillStyle := fillStyle s; font := font s; path := path s |}, [])
  | set_lineWidth w =>
      (if positive_width w
       then {| strokeStyle := strokeStyle s; lineWidth := w;
               fillStyle := fillStyle s; font := font s; path := path s |}
       else s, [])
  | beginPath =>
      ({| strokeStyle := strokeStyle s; lineWidth := lineWidth s;
          fillStyle := fillStyle s; font := font s; path := [] |}, [])
  | moveTo x y =>
      (if num_finite x && num_finite y
       then {| strokeStyle := strokeStyle s; lineWidth := lineWidth s;
               fillStyle := fillStyle s; font := font s;
               path := path s ++ [[(x, y)]] |}
       else s, [])
  | lineTo x y =>
      (if num_finite x && num_finite y
       then {| strokeStyle := strokeStyle s; lineWidth := lineWidth s;
               fillStyle := fillStyle s; font := font s;
               path := extend (x, y) (path s) |}
       else s, [])
  | stroke =>
      (s, match visible (path s) with
          | [] => []
          | sps => [stroked (strokeStyle s) (lineWidth s) sps]
          end)
  | set_fillStyle style =>
      ({| strokeStyle := strokeStyle s; lineWidth := lineWidth s;
          fillStyle := style; font := font s; path := path s |}, [])
  | fillRect x y w h =>
      (s, if proper_rect x y w h then [filled (fillStyle s) x y w h] else [])
  | set_font f =>
      ({| strokeStyle := strokeStyle s; lineWidth := lineWidth s;
          fillStyle := fillStyle s; font := f; path := path s |}, [])
  | fillText t x y =>
      (s, if num_finite x && num_finite y
          then [written (fillStyle s) (font s) t x y] else [])
  end.

(** The state a log leaves the context in, and the marks it makes. *)
Fixpoint after (s : context) (log : list call) : context :=
  match log with
  | [] => s
  | c :: log' => after (fst (step s c)) log'
  end.

Fixpoint paint (s : context) (log : list call) : list mark :=
  match log with
  | [] => []
  | c :: log' => snd (step s c) ++ paint (fst (step s c)) log'
  end.

(** The state of a fresh 2D context. *)
Definition fresh : context :=
  {| strokeStyle := "#000000"; lineWidth := 1; fillStyle := "#000000";
     font := "10px sans-serif"; path := [] |}.

(** * Readings of the log and of the specification

    What the properties below are stated with: how a log is read, and the
    shapes the specification gives to the steps of the effect. *)

(** ** The monad and the loops *)

(** What a loop gathers turn by turn, in order: the log of a loop none
    of whose turns throws. *)
Fixpoint gather {A B} (f : A -> nat -> list B) (l : list A) (i : nat)
  : list B :=
  match l with
  | [] => []
  | a :: l' => f a i ++ gather f l' (S i)
  end.

(** ** Reading the log *)

(** The rectangles a log fills: x, y, width, height. *)
Definition rect : Type := (num * num * num * num)%type.

Definition bars (log : list call) : list rect :=
  flat_map (fun c => match c with
                     | fillRect x y w h => [(x, y, w, h)]
                     | _ => []
                     end) log.

(** A path stroked with width 2 through [p0] and then [rest]. *)
Definition polyline (style : string) (p0 : point) (rest : list point)
  : list call :=
  [beginPath; set_strokeStyle style; set_lineWidth 2]
    ++ moveTo (fst p0) (snd p0)
    :: map (fun p => lineTo (fst p) (snd p)) rest
    ++ [stroke].

(** ** A chart handed data of the other shape *)

(** The timeline of the line graph, handed to a bar chart. *)
Definition timeline : value :=
  VArr [VObj [("time", VNum 0); ("openness", VNum (Fin (1 # 2)))];
        VObj [("time", VNum 1); ("openness", VNum (Fin (3 # 5)))]]%string.

(** ** Clear and grid *)

(** The first step as the specification words it: the whole surface is
    cleared, then five guide lines are ruled across it, the i-th at
    y = 20 + (H - 40) * i / 4. *)
Definition guide_line (cv : canvas) (i : Z) : list call :=
  let y := fin (20 + inject_Z (Z.of_N (height cv) - 40) * (i # 4)) in
  [beginPath; moveTo 0 y; lineTo (num_of_N (width cv)) y; stroke].

Definition clear_and_rule (cv : canvas) : list call :=
  [clearRect 0 0 (num_of_N (width cv)) (num_of_N (height cv));
   set_strokeStyle "rgba(255,255,255,0.1)"; set_lineWidth 1]
    ++ flat_map (guide_line cv) [0; 1; 2; 3; 4].

(** A run of the effect repaints when its log starts with that step. *)
Definition repaints (cv : canvas) (data : value) (type : string) : Prop :=
  exists body,
    calls (render (Some cv) data type) = clear_and_rule cv ++ body.

(** ** The line graph *)

(** The coordinates of a plotted point, as the callback computes them. *)
Definition frame_x (cv : canvas) (n i : nat) : num :=
  (num_of_nat i / (num_of_nat n - 1) * num_of_N (width cv))%num.

Definition value_y (cv : canvas) (v : value) : num :=
  (num_of_N (height cv) - 20
   - to_number (or_else v (VNum 0)) * (num_of_N (height cv) - 40))%num.

Definition pen (i : nat) (x y : num) : call :=
  if (i =? 0)%nat then moveTo x y else lineTo x y.

(** What [plot_channel] logs when every frame can be read. *)
Definition channel_path (cv : canvas) (frames : list value) (key : string)
    (idx : nat) : list call :=
  [beginPath;
   set_strokeStyle (nth (idx mod 4) colors EmptyString);
   set_lineWidth 2]
    ++ gather (fun p j => [pen j (frame_x cv (List.length frames) j)
                                 (value_y cv (own p key))]) frames 0
    ++ [stroke].

(** ** The channels of a line graph *)

(** The channel set as the specification words it: the keys of the first
    frame, the reserved key taken out. *)
Definition channel_set (frames : list value) : list string :=
  remove string_dec "time"%string (own_keys (nth 0 frames VUndefined)).

(** ** Adding a channel *)

(** A property name is an array index when it is the canonical decimal
    form of a whole number below 2^32 - 1.  Objects enumerate such names
    first, in increasing order, and the other names after them in the
    order they were added. *)
Definition array_index (s : string) : option N :=
  match index_of_name s with
  | Some n => if (n <? 2 ^ 32 - 1)%N then Some n else None
  | None => None
  end.

(** Whether a new property [k] is enumerated before an existing [k']. *)
Definition enumerated_before (k k' : string) : bool :=
  match array_index k, array_index k' with
  | Some i, Some j => (i <? j)%N
  | Some _, None => true
  | None, _ => false
  end.

(** [frame[k] = v] on the properties of a frame. *)
Fixpoint set_property (k : string) (v : value) (props : list (string * value))
  : list (string * value) :=
  match props with
  | [] => [(k, v)]
  | (k', v') :: rest =>
      if (k' =? k)%string then (k, v) :: rest
      else if enumerated_before k k' then (k, v) :: props
      else (k', v') :: set_property k v rest
  end.

(** Channel [k] added to every frame, with its value in each. *)
Fixpoint add_channel (k : string) (news : list value)
    (frames : list (list (string * value))) : list (list (string * value)) :=
  match frames, news with
  | f :: fs, v :: vs => set_property k v f :: add_channel k vs fs
  | _, _ => frames
  end.

(** Channel independence as the specification words it: with the channel
    added, the effect logs what it logged before and then one more path,
    stroked in the next colour of the palette. *)
Definition channel_added (cv : canvas) (frames : list (list (string * value)))
    (k : string) (news : list value) : Prop :=
  let before := map VObj frames in
  let after := map VObj (add_channel k news frames) in
  render (Some cv) (VArr after) "motion"
  = (calls (render (Some cv) (VArr before) "motion")
       ++ channel_path cv after k (List.length (channel_set before)),
     Normal tt).

(** Two frames with channels [a] and [b]. *)
Definition two_channels : list (list (string * value)) :=
  [[("a", VNum 0); ("b", VNum 1)]; [("a", VNum 1); ("b", VNum 0)]]%string.

(** ** The order of the channels *)

(** The properties of the object that is written entry by entry, as an
    object literal or a parsed JSON text is: each entry sets its property
    in turn. *)
Definition Object_fromEntries (entries : list (string * value))
  : list (string * value) :=
  fold_left (fun props kv => set_property (fst kv) (snd kv) props) entries [].

(** First-seen key order as the specification words it: the keys as they
    are written, each at the place where it is written first. *)
Definition first_seen (keys : list string) : list string :=
  fold_left (fun seen k =>
               if in_dec string_dec k seen then seen else seen ++ [k])
    keys [].

Definition first_seen_channels (entries : list (string * value))
  : list string :=
  remove string_dec "time"%string (first_seen (map fst entries)).

(** The channel order as the specification words it: the effect strokes
    one path per key of the first frame, [time] taken out, in the order
    in which the keys of that frame were written. *)
Definition stroked_in_first_seen_order (cv : canvas)
    (written : list (list (string * value))) : Prop :=
  let frames := map (fun entries => VObj (Object_fromEntries entries)) written in
  render (Some cv) (VArr frames) "motion"
  = (clear_and_rule cv
       ++ gather (channel_path cv frames)
            (first_seen_channels (nth 0 written [])) 0,
     Normal tt).

(** Two frames written with [time], then channel [b], then channel [0]. *)
Definition index_written_last : list (list (string * value)) :=
  [[("time", VNum 0); ("b", VNum 1); ("0", VNum 0)];
   [("time", VNum 1); ("b", VNum 0); ("0", VNum 1)]]%string.

(** ** The bar chart *)

(** A mapping whose values are all numbers, or falsy and so counted as
    the number 0. *)
Definition numeric (props : list (string * value)) : bool :=
  forallb (fun kv => match or_else (snd kv) (VNum 0) with
                     | VNum _ => true
                     | _ => false
                     end) props.

(** The slot width and the rectangle of a bar, as the callback computes
    them. *)
Definition slot_width (cv : canvas) (m : nat) : num :=
  ((num_of_N (width cv) - 20) / num_of_nat m)%num.

Definition bar_rect (cv : canvas) (data : value) (barW : num) (key : string)
    (j : nat) : rect :=
  let h := (to_number (or_else (own data key) (VNum 0))
            * (num_of_N (height cv) - 40))%num in
  ((10 + num_of_nat j * barW + 5)%num,
   (num_of_N (height cv) - 20 - h)%num,
   (barW - 10)%num,
   h).

Definition rect_width (r : rect) : num := let '(_, _, w, _) := r in w.

Definition num_sum (l : list num) : num := fold_right num_add 0 l.

(** [a < b] *)
Definition num_lt (a b : num) : bool :=
  match a, b with
  | NaN, _ | _, NaN => false
  | Inf s, Inf s' => s && negb s'
  | Inf s, Fin _ => s
  | Fin _, Inf s => negb s
  | Fin p, Fin q => negb (Qle_bool q p)
  end.

(** The horizontal extent of a rectangle: a negative width extends it to
    the left of its origin. *)
Definition span (r : rect) : num * num :=
  let '(x, _, w, _) := r in
  let x' := (x + w)%num in
  if num_lt x' x then (x', x) else (x, x').

Definition overlap (r1 r2 : rect) : bool :=
  let (l1, h1) := span r1 in
  let (l2, h2) := span r2 in
  num_lt l1 h2 && num_lt l2 h1.

(** The bar partition as the specification words it: bar width plus the
    10 of margin, summed over the bars, is W - 20; no two bars overlap. *)
Definition slots_fill (cv : canvas) (rs : list rect) : Prop :=
  num_sum (map (fun r => (rect_width r + 10)%num) rs)
  = num_of_Z (Z.of_N (width cv) - 20).

Definition disjoint (rs : list rect) : Prop :=
  forall i j r1 r2,
    (i < j)%nat ->
    nth_error rs i = Some r1 -> nth_error rs j = Some r2 ->
    overlap r1 r2 = false.

(** [m] categories, each of value 1. *)
Definition crowded (m : nat) : value :=
  VObj (map (fun i => (("k" ++ index_name (N.of_nat i))%string, VNum 1))
          (seq 0 m)).

(** ** Determinism
    The context carries its styles and its path over from one run of the
    effect to the next.  A log paints the same marks from any state when
    every call that reads a field of the context comes after a call of
    the same log that sets it. *)

(** The fields of the context a log has set so far. *)
Record known : Type := {
  k_stroke : bool; k_width : bool; k_fill : bool; k_font : bool; k_path : bool
}.

Definition nothing : known :=
  {| k_stroke := false; k_width := false; k_fill := false; k_font := false;
     k_path := false |}.

Definition sets (k : known) (c : call) : known :=
  match c with
  | set_strokeStyle _ =>
      {| k_stroke := true; k_width := k_width k; k_fill := k_fill k;
         k_font := k_font k; k_path := k_path k |}
  | set_lineWidth w =>
      if positive_width w
      then {| k_stroke := k_stroke k; k_width := true; k_fill := k_fill k;
              k_font := k_font k; k_path := k_path k |}
      else k
  | set_fillStyle _ =>
      {| k_stroke := k_stroke k; k_width := k_width k; k_fill := true;
         k_font := k_font k; k_path := k_path k |}
  | set_font _ =>
      {| k_stroke := k_stroke k; k_width := k_width k; k_fill := k_fill k;
         k_font := true; k_path := k_path k |}
  | beginPath =>
      {| k_stroke := k_stroke k; k_width := k_width k; k_fill := k_fill k;
         k_font := k_font k; k_path := true |}
  | _ => k
  end.

Definition reads_known (k : known) (c : call) : bool :=
  match c with
  | stroke => k_stroke k && k_width k && k_path k
  | fillRect _ _ _ _ => k_fill k
  | fillText _ _ _ => k_fill k && k_font k
  | _ => true
  end.

Fixpoint self_contained_from (k : known) (log : list call) : bool :=
  match log with
  | [] => true
  | c :: log' => reads_known k c && self_contained_from (sets k c) log'
  end.

Definition self_contained (log : list call) : Prop :=
  self_contained_from nothing log = true.

(** Two states of the context that agree on the fields known. *)
Definition agree (k : known) (s1 s2 : context) : Prop :=
  (k_stroke k = true -> strokeStyle s1 = strokeStyle s2)
  /\ (k_width k = true -> lineWidth s1 = lineWidth s2)
  /\ (k_fill k = true -> fillStyle s1 = fillStyle s2)
  /\ (k_font k = true -> font s1 = font s2)
  /\ (k_path k = true -> path s1 = path s2).

(** [k'] knows at least what [k] knows. *)
Definition knows_more (k k' : known) : Prop :=
  (k_stroke k = true -> k_stroke k' = true)
  /\ (k_width k = true -> k_width k' = true)
  /\ (k_fill k = true -> k_fill k' = true)
  /\ (k_font k = true -> k_font k' = true)
  /\ (k_path k = true -> k_path k' = true).

Definition is_pen (c : call) : bool :=
  match c with moveTo _ _ | lineTo _ _ => true | _ => false end.

(** * The rest of the client: the upload form, the application shell and the result page *)

(** ** Calls that put nothing on the surface *)

Definition is_quiet (c : call) : bool :=
  match c with
  | clearRect _ _ _ _ | stroke | fillRect _ _ _ _ | fillText _ _ _ => false
  | _ => true
  end.

(** ** The exceptions of the effect *)

Definition cannot_read : exn :=
  TypeError "Cannot read properties of undefined or null".

Definition cannot_convert : exn :=
  TypeError "Cannot convert undefined or null to object".

Definition not_a_function : exn :=
  TypeError "val.toFixed is not a function".

(** Whether a category value is a number once [|| 0] has been applied. *)
Definition counts_as_number (v : value) : bool :=
  match or_else v (VNum 0) with VNum _ => true | _ => false end.

(** ** The upload form: [handleSubmit] of [Home]
    (client/src/pages/Home.jsx)

    The handler is read as a function of what the network answers: the
    promise of [fetch], the headers and status of the response, and the
    promises of [response.text()] and [response.json()].  It logs the
    calls it makes on the event, the state setters, the console and the
    [onSuccess] prop.  A thrown value is any value; [new Error(m)] is the
    object whose [message] is [m]. *)

Inductive settled (A : Type) : Type :=
| Resolved (a : A)
| Rejected (reason : value).
Arguments Resolved {A} a.
Arguments Rejected {A} reason.

Record response : Type := {
  content_type : option string;
  ok : bool;
  status : N;
  statusText : string;
  text_body : settled string;
  json_body : settled value
}.

Inductive event : Type :=
| preventDefault
| setError (v : value)
| setIsAnalyzing (b : bool)
| fetch (url method : string)
| console_error (message : string) (arg : value)
| onSuccess_called (result : value).

Definition Error (message : string) : value :=
  VObj [("message"%string, VStr message)].

(** [s.includes(sub)] *)
Fixpoint includes (s sub : string) : bool :=
  prefix sub s
  || match s with
     | EmptyString => false
     | String _ s' => includes s' sub
     end.

(** The [onSuccess] prop, when the parent gives one: what calling it
    throws, if anything. *)
Definition callback : Type := value -> option value.

(** The body of the [try] block: its log and the value it throws, if any. *)
Definition try_fetch (fetched : settled response) (onSuccess : option callback)
  : list event * option value :=
  match fetched with
  | Rejected err => ([], Some err)
  | Resolved response =>
      let contentType :=
        match content_type response with Some ct => VStr ct | None => VNull end in
      if negb (truthy contentType)
         || negb (match content_type response with
                  | Some ct => includes ct "application/json"
                  | None => false
                  end)
      then
        match text_body response with
        | Rejected err => ([], Some err)
        | Resolved text =>
            ([console_error "Backend sent HTML instead of JSON:"
                (VStr (substring 0 100 text))],
             Some (Error "Backend returned HTML (HTML Page) instead of JSON Data. Did you update routes/web.py?"))
        end
      else if negb (ok response) then
        ([], Some (Error ("Server Error: " ++ index_name (status response)
                          ++ " " ++ statusText response)))
      else
        match json_body response with
        | Rejected err => ([], Some err)
        | Resolved result =>
            match onSuccess with
            | Some call => ([onSuccess_called result], call result)
            | None => ([], None)
            end
        end
  end.

Definition handleSubmit (fetched : settled response) (onSuccess : option callback)
  : list event * completion unit :=
  let before :=
    [preventDefault; setError VNull; setIsAnalyzing true;
     fetch "http://127.0.0.1:8000/run" "POST"] in
  match try_fetch fetched onSuccess with
  | (log, None) => (before ++ log, Normal tt)
  | (log, Some err) =>
      if readable err
      then (before ++ log
              ++ [console_error "Analysis Failed:" err;
                  setError (or_else (own err "message")
                              (VStr "An unexpected error occurred"));
                  setIsAnalyzing false],
            Normal tt)
      else (before ++ log ++ [console_error "Analysis Failed:" err],
            Throw cannot_read)
  end.

(** The state of [Home] and what the setters do to it. *)
Record home_state : Type := { isAnalyzing : bool; error : value }.

Definition home_initial : home_state :=
  {| isAnalyzing := false; error := VNull |}.

Definition home_set (s : home_state) (ev : event) : home_state :=
  match ev with
  | setError v => {| isAnalyzing := isAnalyzing s; error := v |}
  | setIsAnalyzing b => {| isAnalyzing := b; error := error s |}
  | _ => s
  end.

Definition home_after (s : home_state) (log : list event) : home_state :=
  fold_left home_set log s.

(** What [Home] shows: the spinner while analyzing, else the form, with
    the error box above it when [error] is truthy. *)
Inductive home_view : Type :=
| Spinner
| Form (error_box : option value).

Definition Home_view (s : home_state) : home_view :=
  if isAnalyzing s then Spinner
  else Form (if truthy (error s) then Some (error s) else None).

(** A string contains another. *)
Definition contains (s sub : string) : Prop :=
  exists before after, s = (before ++ sub ++ after)%string.

(** Events that set no state. *)
Definition sets_nothing (ev : event) : bool :=
  match ev with setError _ | setIsAnalyzing _ => false | _ => true end.

Definition html_message : string :=
  "Backend returned HTML (HTML Page) instead of JSON Data. Did you update routes/web.py?".

Definition submit_prologue : list event :=
  [preventDefault; setError VNull; setIsAnalyzing true;
   fetch "http://127.0.0.1:8000/run" "POST"].

(** ** The application shell: [App] (client/src/App.jsx)

    [App] keeps [loading] and [data].  Its mount effect keeps
    [window.resultData] when it is truthy and starts a timer; the timer
    and the splash screen's [onFinish] both call [setLoading(false)], and
    are read here as events that can come in any order and number.  It
    shows the splash screen while loading, and then the layout around
    [Result] when [data] is truthy and around [Home] otherwise; [Result]
    is given no [onBack] and [Home] no [onSuccess]. *)

Record app_state : Type := { loading : bool; data : value }.

Definition App_initial : app_state := {| loading := true; data := VNull |}.

Definition App_mount (window_resultData : value) (s : app_state) : app_state :=
  if truthy window_resultData
  then {| loading := loading s; data := window_resultData |}
  else s.

Inductive app_event : Type :=
| timer_fired
| splash_finished.

Definition App_on (s : app_state) (ev : app_event) : app_state :=
  match ev with
  | timer_fired | splash_finished => {| loading := false; data := data s |}
  end.

Inductive app_view : Type :=
| SplashScreen_shown
| Result_in_Layout (resultData : value) (onBack : bool)
| Home_in_Layout (onSuccess : option callback).

Definition App_view (s : app_state) : app_view :=
  if loading s then SplashScreen_shown
  else if truthy (data s) then Result_in_Layout (data s) false
  else Home_in_Layout None.

(** ** The result page: [Result] and [Badge]
    (client/src/pages/Result.jsx, kept in src/client/src/App.jsx)

    [Result] is read as the function from its props to the element tree
    it returns, or to the exception it throws while building it.  An
    expression in braces is kept as the value it evaluates to; what the
    library later does with the tree is not part of the function.
    [<ChartCanvas .../>] stays an element of the tree, with its props. *)

Inductive node : Type :=
| Elem (tag className : string) (children : list node)
| Text (s : string)
| Val (v : value)
| Fixed (t : text)
| Joined (items : list value) (separator : string)
| Fragment (children : list node)
| Button (className : string) (onClick : bool) (children : list node)
| Chart (data : value) (type title : string).

(** [v?.key] *)
Definition opt (v : value) (key : string) : value :=
  if readable v then own v key else VUndefined.

(** [v.key], which throws when [v] is [undefined] or [null]. *)
Definition member (v : value) (key : string) : completion value :=
  outcome (get v key).

(** [v && n] as a child: the falsy value itself, or the element. *)
Definition and_element (v : value) (n : node) : node :=
  if truthy v then n else Val v.

(** [v === s] for a string literal [s]. *)
Definition is_string (v : value) (s : string) : bool :=
  match v with VStr t => (t =? s)%string | _ => false end.

(** [v > 0] *)
Definition gt_zero (v : value) : bool := num_lt 0 (to_number v).

Definition Badge_styles : list (string * string) :=
  [("default", "bg-white/5 border-white/10 text-gray-300");
   ("red", "bg-red-500/10 border-red-500/30 text-red-200");
   ("blue", "bg-blue-500/10 border-blue-500/30 text-blue-200")]%string.

Fixpoint style_of (color : string) (styles : list (string * string))
  : option string :=
  match styles with
  | [] => None
  | (k, s) :: rest => if (k =? color)%string then Some s else style_of color rest
  end.

(** [Badge]: [color] defaults to ['default'], and a colour without a
    style of its own gets the default style. *)
Definition Badge (color : option string) (children : list node) : node :=
  let color := match color with Some c => c | None => "default"%string end in
  let style :=
    match style_of color Badge_styles with
    | Some s => s
    | None => "bg-white/5 border-white/10 text-gray-300"%string
    end in
  Elem "span" ("px-3 py-1 rounded-full text-xs font-medium border " ++ style)
    children.

(** [phase1?.sentiment_score?.toFixed(2)] *)
Definition optional_toFixed_2 (score : value) : completion node :=
  match score with
  | VUndefined | VNull => Normal (Val VUndefined)
  | VNum n => Normal (Fixed (toFixed2 n))
  | _ => Throw (TypeError "toFixed is not a function")
  end.

(** The example terms, when there are any:
    [flags?.example_terms?.length > 0 && (<p>... {flags.example_terms.join(", ")}</p>)] *)
Definition example_terms (flags : value) : completion node :=
  let terms := opt flags "example_terms" in
  if gt_zero (opt terms "length") then
    match terms with
    | VArr items =>
        Normal (Elem "p" "text-xs text-muted mb-3"
                  [Elem "b" "text-gray-400" [Text "Example terms:"];
                   Text " ";
                   Joined items ", "])
    | _ => Throw (TypeError "join is not a function")
    end
  else Normal (Val (VBool false)).

(** The branch taken when [phase1.social_context_ok] is truthy. *)
Definition social_analysis (phase1 : value) : completion node :=
  let flags := own phase1 "social_context_flags" in
  match example_terms flags with
  | Throw e => Throw e
  | Normal terms =>
      Normal (Fragment
        [Elem "div" "flex flex-wrap gap-2 mb-4"
           [Badge None
              [Text "✅ LLM: "; Val (own phase1 "social_context_model")];
            and_element (opt flags "risk_level")
              (Badge (Some (if is_string (own flags "risk_level") "High"
                            then "red" else "default")%string)
                 [Text "Risk: "; Val (own flags "risk_level")]);
            and_element (opt flags "tone")
              (Badge None [Text "Tone: "; Val (own flags "tone")]);
            and_element (opt flags "has_slang_or_offensive")
              (Badge (Some "red"%string) [Text "⚠️ Possible Slang/Offensive"])];
         terms;
         Elem "div"
           "bg-white/5 p-4 rounded-xl border border-white/10 text-sm text-gray-200 whitespace-pre-wrap leading-relaxed"
           [Val (own phase1 "social_context_explanation")]])
  end.

(** The branch taken otherwise. *)
Definition fallback_mode (phase1 : value) : node :=
  Elem "div" "bg-red-500/5 border border-red-500/20 p-4 rounded-xl"
    [Elem "div" "text-red-300 font-bold text-sm mb-2"
       [Text "⚠️ LLM Social Context Unavailable (Fallback Mode)"];
     Elem "p" "text-muted text-xs mb-3"
       [Text "System is using rule-based explanation."];
     and_element (own phase1 "social_context_warning")
       (Elem "p" "text-[10px] text-red-400 font-mono mb-2"
          [Text "Debug: "; Val (own phase1 "social_context_warning")]);
     Elem "div" "text-sm text-gray-300 whitespace-pre-wrap"
       [Val (own phase1 "social_context_explanation")]].

Definition legend_entry (colour name : string) : node :=
  Elem "span" "flex items-center gap-1"
    [Elem "div" ("w-2 h-2 rounded-full bg-[" ++ colour ++ "]") [];
     Text (" " ++ name)].

Definition Result (resultData : value) (onBack : bool) : completion node :=
  if negb (truthy resultData)
  then Normal (Elem "div" "text-center p-10 text-muted" [Text "No Data Available"])
  else
    let phase1 := own resultData "phase1" in
    let phase2 := own resultData "phase2" in
    match optional_toFixed_2 (opt phase1 "sentiment_score") with
    | Throw e => Throw e
    | Normal score =>
    match member phase1 "social_context_ok" with
    | Throw e => Throw e
    | Normal social_context_ok =>
    match (if truthy social_context_ok then social_analysis phase1
           else Normal (fallback_mode phase1)) with
    | Throw e => Throw e
    | Normal social =>
      Normal (Elem "div" "space-y-6 animate-fade-in"
        [Elem "div" "flex items-center gap-4 mb-2"
           [Button
              "flex items-center gap-2 text-muted hover:text-white font-bold text-sm transition-colors"
              onBack [Text "← Back"];
            Elem "h1" "text-2xl font-bold text-white" [Text "Analysis Result"]];
         Elem "div" "glass-card rounded-2xl p-6"
           [Elem "h2"
              "text-lg font-semibold text-white mb-4 border-b-2 border-accent inline-block pb-1"
              [Text "Phase 1: Linguistics"];
            Elem "div" "flex flex-wrap gap-4 mb-6"
              [Elem "div" "bg-white/5 px-4 py-2 rounded-lg border border-white/10"
                 [Elem "span" "block text-[10px] text-muted uppercase tracking-wider"
                    [Text "Language"];
                  Elem "span" "text-white font-bold" [Val (opt phase1 "language")]];
               Elem "div" "bg-white/5 px-4 py-2 rounded-lg border border-white/10"
                 [Elem "span" "block text-[10px] text-muted uppercase tracking-wider"
                    [Text "Sentiment"];
                  Elem "span" "text-white font-bold"
                    [Val (opt phase1 "sentiment"); Text " ";
                     Elem "span" "text-muted text-xs font-normal"
                       [Text "("; score; Text ")"]]]];
            Elem "div" "mb-6"
              [Elem "h3" "text-xs font-bold text-muted uppercase tracking-wider mb-2"
                 [Text "Transcript"];
               Elem "div"
                 "bg-black/30 p-4 rounded-xl border border-white/10 text-sm text-gray-300 font-mono whitespace-pre-wrap max-h-40 overflow-y-auto custom-scrollbar"
                 [Val (opt phase1 "transcript")]];
            Elem "div" "mt-8"
              [Elem "h3"
                 "text-xs font-bold text-accent uppercase tracking-wider mb-3 flex items-center gap-2"
                 [Text "AI Social Analysis";
                  Elem "div" "h-[1px] flex-1 bg-white/10" []];
               social]];
         Elem "div" "glass-card rounded-2xl p-6"
           [Elem "h2"
              "text-lg font-semibold text-white mb-4 border-b-2 border-success inline-block pb-1"
              [Text "Phase 2: Visual Features"];
            Chart (opt phase2 "timeline_data") "motion" "Motion Timeline";
            Elem "div" "grid grid-cols-1 md:grid-cols-2 gap-6"
              [Chart (opt (opt phase2 "stats") "averages") "bar"
                 "Average Intensity (0-1)";
               Chart (opt (opt phase2 "stats") "variability") "bar"
                 "Variability / Instability"];
            Elem "div"
              "flex flex-wrap justify-center gap-4 mt-2 text-[10px] text-muted uppercase tracking-wider"
              [legend_entry "#7c5cff" "Openness";
               legend_entry "#22c55e" "Gestures";
               legend_entry "#fbbf24" "Eye Contact";
               legend_entry "#ef4444" "Pacing"]]])
    end end end.

(** The charts of a tree, in order, each with its data and type. *)
Fixpoint charts (n : node) : list (value * string) :=
  match n with
  | Elem _ _ children | Fragment children | Button _ _ children =>
      flat_map charts children
  | Chart data type _ => [(data, type)]
  | _ => []
  end.

(** * Properties *)

(** ** The coercions on small inputs *)

Example StringToNumber_examples :
  StringToNumber "  12.50e1 " = Fin 125
  /\ StringToNumber "0x1F" = Fin 31
  /\ StringToNumber "-.5" = Fin (-1 # 2)
  /\ StringToNumber "-Infinity" = Inf true
  /\ StringToNumber EmptyString = Fin 0
  /\ StringToNumber "1,2" = NaN
  /\ StringToNumber "-0x10" = NaN.
Proof. repeat split; vm_compute; reflexivity. Qed.

Example to_number_examples :
  to_number (VArr []) = Fin 0
  /\ to_number (VArr [VStr "7"]) = Fin 7
  /\ to_number (VArr [VNum 1; VNum 2]) = NaN
  /\ to_number (VBool true) = Fin 1
  /\ to_number (VObj []) = NaN.
Proof. repeat split; vm_compute; reflexivity. Qed.

Example toFixed2_examples :
  toFixed2 (Fin (1 # 2)) = Plain "0.50"
  /\ toFixed2 (Fin (123456 # 100)) = Plain "1234.56"
  /\ toFixed2 (Fin (1 # 8)) = Plain "0.13"
  /\ toFixed2 (Fin (-1 # 1000)) = Plain "-0.00"
  /\ toFixed2 (Inf false) = Plain "Infinity".
Proof. repeat split; vm_compute; reflexivity. Qed.

Example own_keys_examples :
  own_keys (VArr [VNum 1; VNum 2; VNum 3]) = ["0"; "1"; "2"]%string
  /\ own_keys (VStr "ab") = ["0"; "1"]%string
  /\ own (VArr [VNum 1; VNum 2]) "1" = VNum 2
  /\ own (VArr [VNum 1; VNum 2]) "01" = VUndefined
  /\ own (VArr [VNum 1; VNum 2]) "length" = VNum 2.
Proof. repeat split; vm_compute; reflexivity. Qed.

Example short_label_example :
  split_space_first (replace_underscores "eye_contact") = "eye"%string.
Proof. reflexivity. Qed.

(** ** The monad and the loops *)

Lemma bind_normal {A B} (m : M A) (f : A -> M B) (a : A) :
  outcome m = Normal a ->
  bind m f = (calls m ++ calls (f a), outcome (f a)).
Proof.
  destruct m as [log [a'|e]]; simpl; intros E; inversion E; subst.
  now destruct (f a).
Qed.

Lemma bind_throw {A B} (m : M A) (f : A -> M B) (e : exn) :
  outcome m = Throw e -> bind m f = (calls m, Throw e).
Proof.
  destruct m as [log [a'|e']]; simpl; intros E; inversion E; subst; reflexivity.
Qed.

Lemma bind_ret {A B} (a : A) (f : A -> M B) : bind (ret a) f = f a.
Proof. unfold bind, ret. now destruct (f a). Qed.

Lemma bind_ctx {B} (c : call) (k : M B) :
  (ctx c ;; k) = (c :: calls k, outcome k).
Proof. unfold bind, ctx. now destruct k. Qed.

Lemma forEach_from_gather {A} (f : A -> nat -> M unit) (l : list A) :
  forall i,
    (forall a j, In a l -> outcome (f a j) = Normal tt) ->
    forEach_from f l i = (gather (fun a j => calls (f a j)) l i, Normal tt).
Proof.
  induction l as [|a l IH]; intros i Hn; simpl.
  - reflexivity.
  - rewrite (bind_normal _ _ tt) by (apply Hn; now left).
    rewrite IH by (intros; apply Hn; now right).
    reflexivity.
Qed.

Lemma gather_app {A B} (f : A -> nat -> list B) (l1 l2 : list A) :
  forall i,
    gather f (l1 ++ l2) i = gather f l1 i ++ gather f l2 (i + List.length l1).
Proof.
  induction l1 as [|a l1 IH]; intros i; simpl.
  - now rewrite Nat.add_0_r.
  - rewrite IH, <- app_assoc.
    now replace (S i + List.length l1)%nat with (i + S (List.length l1))%nat by lia.
Qed.

Lemma gather_ext {A B} (f g : A -> nat -> list B) (l : list A) :
  forall i,
    (forall a j, In a l -> f a j = g a j) -> gather f l i = gather g l i.
Proof.
  induction l as [|a l IH]; intros i Hfg; simpl.
  - reflexivity.
  - rewrite Hfg by now left. f_equal. apply IH. intros; apply Hfg; now right.
Qed.

Lemma gather_flat_map {A B C} (f : A -> nat -> list B) (g : B -> list C)
    (l : list A) :
  forall i,
    flat_map g (gather f l i) = gather (fun a j => flat_map g (f a j)) l i.
Proof.
  induction l as [|a l IH]; intros i; simpl.
  - reflexivity.
  - now rewrite flat_map_app, IH.
Qed.

Lemma gather_singletons_length {A B} (g : A -> nat -> B) (l : list A) :
  forall i, List.length (gather (fun a j => [g a j]) l i) = List.length l.
Proof. induction l as [|a l IH]; intros i; simpl; auto. Qed.

Lemma gather_singletons_nth {A B} (g : A -> nat -> B) (l : list A) :
  forall i n r,
    nth_error (gather (fun a j => [g a j]) l i) n = Some r ->
    exists a, nth_error l n = Some a /\ r = g a (i + n)%nat.
Proof.
  induction l as [|a l IH]; intros i [|n] r; simpl; try discriminate.
  - intros E. inversion E. exists a. now rewrite Nat.add_0_r.
  - intros E. destruct (IH _ _ _ E) as [a' [Ha' ->]].
    exists a'. split; [assumption|]. f_equal. lia.
Qed.

(** ** Arithmetic on whole numbers *)

Arguments num_add : simpl never.
Arguments num_sub : simpl never.
Arguments num_mul : simpl never.
Arguments num_div : simpl never.
Arguments num_neg : simpl never.
Arguments num_of_Z : simpl never.
Arguments num_of_N : simpl never.
Arguments num_of_nat : simpl never.
Arguments fin : simpl never.

(** Equations between rationals built from whole numbers. *)
Ltac Qeq_lia :=
  unfold Qeq, Qplus, Qminus, Qopp, Qmult, inject_Z; cbn [Qnum Qden]; lia.

Lemma fin_eq (p q : Q) : p == q -> fin p = fin q.
Proof. intros E. unfold fin. f_equal. now apply Qred_complete. Qed.

Lemma Qred_inject_Z (z : Z) : Qred (inject_Z z) = inject_Z z.
Proof.
  unfold Qred, inject_Z.
  pose proof (Z.ggcd_gcd z 1) as Hg.
  pose proof (Z.ggcd_correct_divisors z 1) as Hd.
  destruct (Z.ggcd z 1) as [g [n d]]; simpl in *.
  rewrite Z.gcd_1_r in Hg. subst g. destruct Hd as [Hn Hd].
  replace n with z by lia. replace d with 1 by lia. reflexivity.
Qed.

Lemma fin_Z (z : Z) : fin (inject_Z z) = num_of_Z z.
Proof. unfold fin, num_of_Z. now rewrite Qred_inject_Z. Qed.

Lemma num_add_Z (a b : Z) : (num_of_Z a + num_of_Z b)%num = num_of_Z (a + b).
Proof.
  rewrite <- (fin_Z (a + b)). unfold num_add, num_of_Z. apply fin_eq.
  now rewrite inject_Z_plus.
Qed.

Lemma num_neg_Z (a : Z) : num_neg (num_of_Z a) = num_of_Z (- a).
Proof.
  rewrite <- (fin_Z (- a)). unfold num_neg, num_of_Z. apply fin_eq.
  now rewrite inject_Z_opp.
Qed.

Lemma num_sub_Z (a b : Z) : (num_of_Z a - num_of_Z b)%num = num_of_Z (a - b).
Proof. unfold num_sub. now rewrite num_neg_Z, num_add_Z. Qed.

Lemma num_mul_Z (a b : Z) : (num_of_Z a * num_of_Z b)%num = num_of_Z (a * b).
Proof.
  rewrite <- (fin_Z (a * b)). unfold num_mul, num_of_Z. apply fin_eq.
  now rewrite inject_Z_mult.
Qed.

Lemma num_div_same (a : Z) : a <> 0 -> (num_of_Z a / num_of_Z a)%num = num_of_Z 1.
Proof.
  intros Ha. rewrite <- (fin_Z 1). unfold num_div, num_of_Z, Qis_zero. simpl Qnum.
  destruct (Z.eqb_spec a 0) as [E|_]; [contradiction|].
  apply fin_eq. unfold Qdiv. rewrite Qmult_inv_r; [reflexivity|].
  intros E. apply Ha. unfold Qeq in E. simpl in E. lia.
Qed.

Lemma num_div_zero (a : Z) : a <> 0 -> (num_of_Z 0 / num_of_Z a)%num = num_of_Z 0.
Proof.
  intros Ha. rewrite <- (fin_Z 0). unfold num_div, num_of_Z, Qis_zero. simpl Qnum.
  destruct (Z.eqb_spec a 0) as [E|_]; [contradiction|].
  apply fin_eq. unfold Qdiv. now rewrite Qmult_0_l.
Qed.

Lemma num_mul_zero_l (n : N) : (num_of_Z 0 * num_of_N n)%num = num_of_Z 0.
Proof. unfold num_of_N. now rewrite num_mul_Z. Qed.

Lemma num_sub_N (n : N) (z : Z) :
  (num_of_N n - num_of_Z z)%num = num_of_Z (Z.of_N n - z).
Proof. unfold num_of_N. apply num_sub_Z. Qed.

(** ** The two scenarios *)

(** C3. The series scenario on the 800 by 200 surface: the effect
    completes, and after the grid it strokes one path per key of the first
    frame.  The path of channel [a] runs from (0, 180) to (800, 20) and
    the path of channel [b] from (0, 20) to (800, 180).  (The key [t] is
    not the reserved key [time], so it is stroked as well, before them.) *)
Theorem C3_series_scenario :
  let frames := elements series_scenario in
  render (Some mounted) series_scenario "motion"
  = (calls (clear_and_grid mounted)
       ++ calls (plot_channel mounted frames "t" 0)
       ++ calls (plot_channel mounted frames "a" 1)
       ++ calls (plot_channel mounted frames "b" 2),
     Normal tt)
  /\ calls (plot_channel mounted frames "a" 1)
     = polyline "#22c55e" (Fin 0, Fin 180) [(Fin 800, Fin 20)]
  /\ calls (plot_channel mounted frames "b" 2)
     = polyline "#fbbf24" (Fin 0, Fin 20) [(Fin 800, Fin 180)].
Proof. repeat split; vm_compute; reflexivity. Qed.

(** C4. The categorical scenario on the 800 by 200 surface: the slot is
    390 wide, and exactly two bars are filled, each 380 wide; the bar of
    [openness] is 80 high and the bar of [pacing] 160, the full height of
    the plot. *)
Theorem C4_categorical_scenario :
  render (Some mounted) categorical_scenario "bar"
  = (calls (clear_and_grid mounted)
       ++ calls (draw_bar mounted categorical_scenario 390 "openness" 0)
       ++ calls (draw_bar mounted categorical_scenario 390 "pacing" 1),
     Normal tt)
  /\ bars (calls (render (Some mounted) categorical_scenario "bar"))
     = [(Fin 15, Fin 100, Fin 380, Fin 80);
        (Fin 405, Fin 20, Fin 380, Fin 160)]
  /\ bars (calls (draw_bar mounted categorical_scenario 390 "pacing" 1))
     = [(Fin 405, Fin 20, Fin 380, Fin 160)].
Proof. repeat split; vm_compute; reflexivity. Qed.

(** What the two scenarios put on a fresh surface. *)
Example series_scenario_marks :
  paint fresh (calls (render (Some mounted) series_scenario "motion"))
  = [cleared (Fin 0) (Fin 0) (Fin 800) (Fin 200);
     stroked "rgba(255,255,255,0.1)" 1 [[(Fin 0, Fin 20); (Fin 800, Fin 20)]];
     stroked "rgba(255,255,255,0.1)" 1 [[(Fin 0, Fin 60); (Fin 800, Fin 60)]];
     stroked "rgba(255,255,255,0.1)" 1 [[(Fin 0, Fin 100); (Fin 800, Fin 100)]];
     stroked "rgba(255,255,255,0.1)" 1 [[(Fin 0, Fin 140); (Fin 800, Fin 140)]];
     stroked "rgba(255,255,255,0.1)" 1 [[(Fin 0, Fin 180); (Fin 800, Fin 180)]];
     stroked "#7c5cff" 2 [[(Fin 0, Fin 180); (Fin 800, Fin 20)]];
     stroked "#22c55e" 2 [[(Fin 0, Fin 180); (Fin 800, Fin 20)]];
     stroked "#fbbf24" 2 [[(Fin 0, Fin 20); (Fin 800, Fin 180)]]].
Proof. vm_compute. reflexivity. Qed.

Example categorical_scenario_marks :
  paint (after fresh (clear_and_rule mounted))
    (calls (chart_body mounted categorical_scenario "bar"))
  = [filled "rgba(124,92,255,0.85)" (Fin 15) (Fin 100) (Fin 380) (Fin 80);
     written "#fff" "11px sans-serif" (Plain "0.50") (Fin 15) (Fin 94);
     written "rgba(255,255,255,0.6)" "10px sans-serif" (Plain "openness")
       (Fin 15) (Fin 195);
     filled "rgba(124,92,255,0.85)" (Fin 405) (Fin 20) (Fin 380) (Fin 160);
     written "#fff" "11px sans-serif" (Plain "1.00") (Fin 405) (Fin 14);
     written "rgba(255,255,255,0.6)" "10px sans-serif" (Plain "pacing")
       (Fin 405) (Fin 195)].
Proof. vm_compute. reflexivity. Qed.

(** ** A chart handed data of the other shape *)

Lemma clear_and_grid_normal (cv : canvas) :
  outcome (clear_and_grid cv) = Normal tt.
Proof. reflexivity. Qed.

Arguments clear_and_grid : simpl never.

(** A line graph handed a mapping draws no chart body and completes. *)
Lemma line_graph_of_a_mapping (cv : canvas) (props : list (string * value)) :
  render (Some cv) (VObj props) "motion"
  = (calls (clear_and_grid cv), Normal tt).
Proof.
  unfold render. simpl truthy. simpl negb. cbv iota.
  rewrite (bind_normal _ _ tt) by apply clear_and_grid_normal.
  unfold chart_body. cbn. now rewrite app_nil_r.
Qed.

(** C1. A bar chart handed a sequence of frames: an array passes the
    [typeof data === 'object'] test, so the bar branch runs over its
    indices; the first frame is not a number, the rectangle gets NaN for
    its top and height, and [val.toFixed] throws. *)
Theorem C1_bar_chart_of_a_sequence_throws :
  render (Some mounted) timeline "bar"
  = (calls (clear_and_grid mounted)
       ++ [set_fillStyle "rgba(124,92,255,0.85)";
           fillRect (Fin 15) NaN (Fin 380) NaN;
           set_fillStyle "#fff"; set_font "11px sans-serif"],
     Throw (TypeError "val.toFixed is not a function")).
Proof. vm_compute. reflexivity. Qed.

(** A bar chart handed a sequence of numbers completes, and draws one bar
    per element. *)
Example bar_chart_of_numbers :
  outcome (render (Some mounted) (VArr [VNum (Fin (1 # 2)); VNum 1]) "bar")
  = Normal tt
  /\ bars (calls (render (Some mounted) (VArr [VNum (Fin (1 # 2)); VNum 1]) "bar"))
     = [(Fin 15, Fin 100, Fin 380, Fin 80);
        (Fin 405, Fin 20, Fin 380, Fin 160)].
Proof. split; vm_compute; reflexivity. Qed.

(** ** Clear and grid *)

Lemma guide_y (h : N) (i : nat) :
  (20 + (num_of_N h - 40) * (num_of_nat i / 4))%num
  = fin (20 + inject_Z (Z.of_N h - 40) * (Z.of_nat i # 4)).
Proof.
  rewrite num_sub_N. unfold num_of_nat, num_div, num_mul, num_add, num_of_Z.
  change (Qis_zero (inject_Z 4)) with false. cbv iota.
  apply fin_eq. unfold fin. rewrite !Qred_correct.
  apply Qplus_comp; [reflexivity|]. apply Qmult_comp; [reflexivity|].
  unfold Qeq, Qdiv, Qmult, Qinv, inject_Z; simpl. lia.
Qed.

Lemma clear_and_grid_calls (cv : canvas) :
  calls (clear_and_grid cv) = clear_and_rule cv.
Proof.
  unfold clear_and_rule, guide_line. cbn [flat_map app].
  change (calls (clear_and_grid cv)) with
    ([clearRect 0 0 (num_of_N (width cv)) (num_of_N (height cv));
      set_strokeStyle "rgba(255,255,255,0.1)"; set_lineWidth 1]
       ++ flat_map (fun i : nat =>
            let y := (20 + (num_of_N (height cv) - 40) * (num_of_nat i / 4))%num in
            [beginPath; moveTo 0 y; lineTo (num_of_N (width cv)) y; stroke])
          [0; 1; 2; 3; 4]%nat).
  cbn [flat_map app]. now rewrite !guide_y.
Qed.

(** The guide lines run from y = 20 to y = H - 20. *)
Lemma guide_lines_span (cv : canvas) :
  guide_line cv 0
  = [beginPath; moveTo 0 20; lineTo (num_of_N (width cv)) 20; stroke]
  /\ guide_line cv 4
     = (let y := num_of_Z (Z.of_N (height cv) - 20) in
        [beginPath; moveTo 0 y; lineTo (num_of_N (width cv)) y; stroke]).
Proof.
  unfold guide_line. split; cbv zeta.
  - replace (fin (20 + inject_Z (Z.of_N (height cv) - 40) * (0 # 4)))
      with (num_of_Z 20); [reflexivity|].
    rewrite <- fin_Z. apply fin_eq. Qeq_lia.
  - replace (fin (20 + inject_Z (Z.of_N (height cv) - 40) * (4 # 4)))
      with (num_of_Z (Z.of_N (height cv) - 20)); [reflexivity|].
    rewrite <- fin_Z. apply fin_eq. Qeq_lia.
Qed.

(** C2, as the code has it.  A run that is handed data (any truthy
    value) on a mounted canvas first clears the whole surface and rules
    the five guide lines, whatever the chart body then does.  A run that
    is handed no data (undefined or any other falsy value) returns before
    that step: it makes no call at all, so nothing is cleared. *)
Theorem C2_repaint_when_data_is_present
    (cv : canvas) (data : value) (type : string) :
  if truthy data
  then calls (render (Some cv) data type)
       = clear_and_rule cv ++ calls (chart_body cv data type)
       /\ repaints cv data type
  else render (Some cv) data type = ([], Normal tt).
Proof.
  unfold repaints, render. destruct (truthy data); cbn [negb].
  - rewrite (bind_normal _ _ tt) by apply clear_and_grid_normal.
    cbn [calls fst]. rewrite clear_and_grid_calls. split; [reflexivity|].
    now eexists.
  - reflexivity.
Qed.

(** C2 as stated fails: with [data] undefined the surface is not
    cleared and no guide line is drawn. *)
Lemma C2_absent_data_is_not_repainted :
  ~ repaints mounted VUndefined "motion".
Proof. intros [body E]. vm_compute in E. discriminate E. Qed.

(** ** The line graph *)

Lemma plot_point_readable (cv : canvas) (n : nat) (key : string)
    (p : value) (i : nat) :
  readable p = true ->
  plot_point cv n key p i
  = ([pen i (frame_x cv n i) (value_y cv (own p key))], Normal tt).
Proof.
  intros Hr. unfold plot_point, get. rewrite Hr, bind_ret.
  unfold pen. now destruct (i =? 0)%nat.
Qed.

Lemma plot_points_readable (cv : canvas) (n : nat) (key : string)
    (frames : list value) (i : nat) :
  forallb readable frames = true ->
  forEach_from (plot_point cv n key) frames i
  = (gather (fun p j => [pen j (frame_x cv n j) (value_y cv (own p key))])
       frames i,
     Normal tt).
Proof.
  intros Hr. rewrite forallb_forall in Hr.
  rewrite forEach_from_gather.
  - f_equal. apply gather_ext. intros p j Hin.
    now rewrite plot_point_readable by auto.
  - intros p j Hin. now rewrite plot_point_readable by auto.
Qed.

Lemma plot_channel_readable (cv : canvas) (frames : list value)
    (key : string) (idx : nat) :
  forallb readable frames = true ->
  plot_channel cv frames key idx
  = (channel_path cv frames key idx, Normal tt).
Proof.
  intros Hr. unfold plot_channel, forEach, channel_path.
  rewrite !bind_ctx. rewrite (plot_points_readable _ _ _ _ _ Hr).
  cbn [calls fst outcome snd bind]. reflexivity.
Qed.

Lemma frame_x_first (cv : canvas) (n : nat) :
  (2 <= n)%nat -> frame_x cv n 0 = num_of_Z 0.
Proof.
  intros Hn. unfold frame_x, num_of_nat, num_of_N.
  rewrite num_sub_Z, num_div_zero by lia. now rewrite num_mul_Z.
Qed.

Lemma frame_x_last (cv : canvas) (n : nat) :
  (2 <= n)%nat -> frame_x cv n (n - 1) = num_of_N (width cv).
Proof.
  intros Hn. unfold frame_x, num_of_nat, num_of_N.
  rewrite num_sub_Z. replace (Z.of_nat (n - 1)) with (Z.of_nat n - 1) by lia.
  rewrite num_div_same by lia. now rewrite num_mul_Z, Z.mul_1_l.
Qed.

(** C7. In a line graph of n >= 2 frames (each of them readable, so
    that the path is drawn to its end), the path of every channel starts
    with a [moveTo] at x = 0, the x computed for the first frame, and
    ends with a [lineTo] at x = W, the x computed for the last frame. *)
Theorem C7_endpoint_anchoring
    (cv : canvas) (frames : list value) (key : string) (idx : nat) :
  (2 <= List.length frames)%nat ->
  forallb readable frames = true ->
  frame_x cv (List.length frames) 0 = num_of_Z 0
  /\ frame_x cv (List.length frames) (List.length frames - 1)
     = num_of_N (width cv)
  /\ exists y_first between y_last,
      calls (plot_channel cv frames key idx)
      = [beginPath;
         set_strokeStyle (nth (idx mod 4) colors EmptyString);
         set_lineWidth 2;
         moveTo 0 y_first]
          ++ between
          ++ [lineTo (num_of_N (width cv)) y_last; stroke].
Proof.
  intros Hn Hr.
  split; [now apply frame_x_first|]. split; [now apply frame_x_last|].
  rewrite plot_channel_readable by assumption. unfold channel_path.
  destruct frames as [|f0 rest]; [simpl in Hn; lia|].
  destruct (exists_last (l := rest)) as [mid [fl E]].
  { intros ->. simpl in Hn. lia. }
  subst rest. set (n := List.length (f0 :: mid ++ [fl])) in *.
  cbn [gather]. rewrite gather_app. cbn [gather].
  assert (Hlast : (1 + List.length mid)%nat = (n - 1)%nat).
  { subst n. cbn [List.length]. rewrite length_app. simpl. lia. }
  rewrite Hlast. unfold pen at 1 3. cbn [Nat.eqb].
  replace (n - 1 =? 0)%nat with false by (symmetry; apply Nat.eqb_neq; lia).
  rewrite frame_x_first, frame_x_last by assumption.
  exists (value_y cv (own f0 key)).
  exists (gather (fun p j => [pen j (frame_x cv n j) (value_y cv (own p key))])
            mid 1).
  exists (value_y cv (own fl key)).
  cbn [calls fst app]. rewrite <- !app_assoc. reflexivity.
Qed.

Lemma C7_endpoint_anchoring_witness :
  exists y_first between y_last,
    calls (plot_channel mounted (elements series_scenario) "a" 1)
    = [beginPath; set_strokeStyle "#22c55e"; set_lineWidth 2;
       moveTo 0 y_first]
        ++ between
        ++ [lineTo 800 y_last; stroke].
Proof.
  exact (proj2 (proj2 (C7_endpoint_anchoring mounted (elements series_scenario)
                         "a" 1 (le_n 2) eq_refl))).
Defined.

(** ** Falsy values *)

(** The falsy values: undefined, null, false, NaN, zero and the empty
    string. *)
Lemma falsy_values (v : value) :
  truthy v = false <->
  v = VUndefined \/ v = VNull \/ v = VBool false \/ v = VNum NaN
  \/ (exists q, v = VNum (Fin q) /\ q == 0) \/ v = VStr EmptyString.
Proof.
  split.
  - destruct v as [| |[]|[|s|q]|s| |]; simpl; intros E; try discriminate; auto 6.
    + right; right; right; right; left. exists q. split; [reflexivity|].
      apply negb_false_iff in E. unfold Qis_zero in E.
      apply Z.eqb_eq in E. unfold Qeq. rewrite E. reflexivity.
    + destruct s; [auto 7|discriminate].
  - intros [->|[->|[->|[->|[[q [-> Hq]]| ->]]]]]; try reflexivity.
    simpl. apply negb_false_iff. unfold Qis_zero. apply Z.eqb_eq.
    unfold Qeq in Hq. simpl in Hq. lia.
Qed.

Lemma value_y_falsy (cv : canvas) (v : value) :
  truthy v = false -> value_y cv v = num_of_Z (Z.of_N (height cv) - 20).
Proof.
  intros Hv. unfold value_y, or_else. rewrite Hv. cbn [to_number].
  rewrite !num_sub_N, num_mul_Z, num_sub_Z. f_equal. lia.
Qed.

(** C10. A channel value or a category value that is falsy counts as
    0.  In the line graph the point of such a value is put on the
    baseline, y = H - 20; in the bar chart the rectangle of such a value
    is filled with height 0 from the baseline and labelled 0.00.  Neither
    callback throws. *)
Theorem C10_falsy_values_count_as_zero
    (cv : canvas) (key : string)
    (point : value) (n i : nat) (data : value) (barW : num) (j : nat) :
  readable point = true -> truthy (own point key) = false ->
  readable data = true -> truthy (own data key) = false ->
  let H := Z.of_N (height cv) in
  plot_point cv n key point i
  = ([pen i (frame_x cv n i) (num_of_Z (H - 20))], Normal tt)
  /\ draw_bar cv data barW key j
     = (let x := (10 + num_of_nat j * barW + 5)%num in
        [set_fillStyle "rgba(124,92,255,0.85)";
         fillRect x (num_of_Z (H - 20)) (barW - 10) 0;
         set_fillStyle "#fff"; set_font "11px sans-serif";
         fillText (Plain "0.00") x (num_of_Z (H - 26));
         set_fillStyle "rgba(255,255,255,0.6)"; set_font "10px sans-serif";
         fillText (Plain (split_space_first (replace_underscores key)))
           x (num_of_Z (H - 5))],
        Normal tt).
Proof.
  intros Hp Hv Hd Hw H. split.
  - rewrite plot_point_readable by assumption.
    now rewrite value_y_falsy by assumption.
  - unfold draw_bar, get. rewrite Hd, bind_ret.
    unfold or_else. rewrite Hw. cbn [to_number].
    rewrite !num_sub_N, num_mul_Z, !num_sub_Z.
    replace (0 * (Z.of_N (height cv) - 40)) with 0 by lia.
    replace (Z.of_N (height cv) - 20 - 0) with (H - 20) by (subst H; lia).
    replace (H - 20 - 6) with (H - 26) by lia.
    reflexivity.
Qed.

Lemma C10_falsy_values_count_as_zero_witness :
  plot_point mounted 2 "a" (VObj [("a", VNull)]%string) 1
  = ([lineTo 800 180], Normal tt)
  /\ draw_bar mounted (VObj [("a", VStr EmptyString)]%string) 390 "a" 0
     = ([set_fillStyle "rgba(124,92,255,0.85)";
         fillRect 15 180 380 0;
         set_fillStyle "#fff"; set_font "11px sans-serif";
         fillText (Plain "0.00") 15 174;
         set_fillStyle "rgba(255,255,255,0.6)"; set_font "10px sans-serif";
         fillText (Plain "a") 15 195],
        Normal tt).
Proof.
  exact (C10_falsy_values_count_as_zero mounted "a"
           (VObj [("a", VNull)]%string) 2 1
           (VObj [("a", VStr EmptyString)]%string) 390 0
           eq_refl eq_refl eq_refl eq_refl).
Defined.

(** ** The channels of a line graph *)

Lemma filter_not_time (keys : list string) :
  filter (fun k => negb (k =? "time")%string) keys
  = remove string_dec "time"%string keys.
Proof.
  induction keys as [|k keys IH]; cbn [filter remove]; [reflexivity|].
  destruct (string_dec "time" k) as [E|E].
  - subst k. rewrite String.eqb_refl. exact IH.
  - destruct (String.eqb_spec k "time") as [E'|_]; [congruence|].
    cbn [negb]. now rewrite IH.
Qed.

Lemma first_frame_readable (frames : list value) :
  (1 <= List.length frames)%nat ->
  forallb readable frames = true ->
  readable (nth 0 frames VUndefined) = true.
Proof.
  intros Hn Hr. destruct frames as [|f0 rest]; [simpl in Hn; lia|].
  simpl in *. now apply andb_true_iff in Hr.
Qed.

(** The line graph of readable frames: one path per channel, in order. *)
Lemma motion_readable (cv : canvas) (frames : list value) :
  (1 <= List.length frames)%nat ->
  forallb readable frames = true ->
  motion cv (VArr frames)
  = (gather (channel_path cv frames) (channel_set frames) 0, Normal tt).
Proof.
  intros Hn Hr. unfold motion, Object_keys. cbn [elements].
  rewrite (first_frame_readable _ Hn Hr), bind_ret, filter_not_time.
  unfold forEach. rewrite forEach_from_gather.
  - f_equal. apply gather_ext. intros key idx _.
    now rewrite plot_channel_readable.
  - intros key idx _. now rewrite plot_channel_readable.
Qed.

Lemma render_motion (cv : canvas) (frames : list value) :
  (2 <= List.length frames)%nat ->
  render (Some cv) (VArr frames) "motion"
  = (clear_and_rule cv ++ calls (motion cv (VArr frames)),
     outcome (motion cv (VArr frames))).
Proof.
  intros Hn. unfold render. cbn [truthy negb].
  rewrite (bind_normal _ _ tt) by apply clear_and_grid_normal.
  rewrite clear_and_grid_calls. unfold chart_body.
  cbn [isArray elements String.eqb Ascii.eqb Bool.eqb andb].
  replace (1 <? List.length frames)%nat with true
    by (symmetry; apply Nat.ltb_lt; lia).
  reflexivity.
Qed.

(** ** The order of the channels *)

(** Writing a property whose name is not an array index keeps the keys in
    place when the name is there already, and adds it last otherwise. *)
Lemma set_property_keys (k : string) (v : value)
    (props : list (string * value)) :
  array_index k = None ->
  map fst (set_property k v props)
  = if in_dec string_dec k (map fst props) then map fst props
    else map fst props ++ [k].
Proof.
  intros Hk. induction props as [|[k' v'] rest IH].
  - reflexivity.
  - cbn [set_property]. destruct (String.eqb_spec k' k) as [E|E].
    + subst k'. cbn [map fst].
      destruct (in_dec string_dec k (k :: map fst rest)) as [_|Hn];
        [reflexivity|]. exfalso. apply Hn. now left.
    + unfold enumerated_before. rewrite Hk. cbn [map fst]. rewrite IH.
      destruct (in_dec string_dec k (map fst rest)) as [Hin|Hin];
        destruct (in_dec string_dec k (k' :: map fst rest)) as [Hin'|Hin'];
        try reflexivity.
      * exfalso. apply Hin'. now right.
      * exfalso. destruct Hin' as [E'|Hin']; [now apply E|now apply Hin].
Qed.

Lemma written_keys (entries acc : list (string * value)) :
  Forall (fun k => array_index k = None) (map fst entries) ->
  map fst (fold_left (fun props kv => set_property (fst kv) (snd kv) props)
             entries acc)
  = fold_left (fun seen k =>
                 if in_dec string_dec k seen then seen else seen ++ [k])
      (map fst entries) (map fst acc).
Proof.
  revert acc. induction entries as [|[k v] rest IH]; intros acc Hk.
  - reflexivity.
  - cbn [map fst] in Hk. inversion Hk as [|? ? Hk1 Hk2]. subst.
    cbn [fold_left map fst snd]. rewrite (IH _ Hk2).
    now rewrite set_property_keys.
Qed.

Lemma Object_fromEntries_keys (entries : list (string * value)) :
  Forall (fun k => array_index k = None) (map fst entries) ->
  own_keys (VObj (Object_fromEntries entries)) = first_seen (map fst entries).
Proof.
  intros Hk. unfold Object_fromEntries, first_seen. cbn [own_keys].
  now rewrite written_keys.
Qed.

(** C8. In a line graph of two or more readable frames, the effect
    completes and, after the grid, logs exactly one stroked path per
    member of the channel set, in the order of that set: the keys of the
    first frame in their enumeration order, without [time].  The k-th of
    them is stroked in the k-th colour of the palette, cycling.  [time]
    is not among them.  For a first frame none of whose keys is an array
    index, the order of the channel set is the order in which the keys of
    that frame were first written. *)
Theorem C8_channel_set (cv : canvas) (frames : list value) :
  (2 <= List.length frames)%nat ->
  forallb readable frames = true ->
  render (Some cv) (VArr frames) "motion"
  = (clear_and_rule cv
       ++ gather (channel_path cv frames) (channel_set frames) 0,
     Normal tt)
  /\ ~ In "time"%string (channel_set frames)
  /\ (forall entries,
        nth 0 frames VUndefined = VObj (Object_fromEntries entries) ->
        Forall (fun k => array_index k = None) (map fst entries) ->
        channel_set frames = first_seen_channels entries).
Proof.
  intros Hn Hr. split; [|split].
  - rewrite render_motion by assumption.
    now rewrite motion_readable by (assumption || lia).
  - apply remove_In.
  - intros entries H0 Hk. unfold channel_set, first_seen_channels.
    now rewrite H0, Object_fromEntries_keys.
Qed.

Lemma C8_channel_set_witness :
  render (Some mounted)
    (VArr [VObj [("time", VNum 0); ("a", VNum 0); ("b", VNum 1)];
           VObj [("time", VNum 1); ("a", VNum 1); ("b", VNum 0)]]%string)
    "motion"
  = (clear_and_rule mounted
       ++ polyline "#7c5cff" (Fin 0, Fin 180) [(Fin 800, Fin 20)]
       ++ polyline "#22c55e" (Fin 0, Fin 20) [(Fin 800, Fin 180)],
     Normal tt)
  /\ ~ In "time"%string ["a"; "b"]%string
  /\ ["a"; "b"]%string
     = first_seen_channels [("time", VNum 0); ("a", VNum 0); ("b", VNum 1)]%string.
Proof.
  destruct (C8_channel_set mounted
              [VObj [("time", VNum 0); ("a", VNum 0); ("b", VNum 1)];
               VObj [("time", VNum 1); ("a", VNum 1); ("b", VNum 0)]]%string
              (le_n 2) eq_refl) as [Hlog [Htime Horder]].
  split; [exact Hlog|]. split; [exact Htime|].
  apply (Horder [("time", VNum 0); ("a", VNum 0); ("b", VNum 1)]%string).
  - reflexivity.
  - repeat constructor.
Defined.

(** C8 as stated fails for a key that is an array index: objects
    enumerate such a key first, so in frames written with [time], then
    [b], then [0], channel [0] is stroked first, in the first colour, and
    [b] after it, though [b] was written first. *)
Lemma C8_index_key_is_not_in_first_seen_order :
  ~ stroked_in_first_seen_order mounted index_written_last.
Proof.
  unfold stroked_in_first_seen_order. intros E. vm_compute in E.
  discriminate E.
Qed.

(** ** Adding a channel *)

Lemma lookup_set_property_other (k key : string) (v : value)
    (props : list (string * value)) :
  key <> k -> lookup key (set_property k v props) = lookup key props.
Proof.
  intros Hk. induction props as [|[k' v'] rest IH]; cbn [set_property lookup].
  - destruct (String.eqb_spec k key); [congruence|reflexivity].
  - destruct (String.eqb_spec k' k) as [E|E].
    + subst k'. cbn [lookup].
      destruct (String.eqb_spec k key); [congruence|reflexivity].
    + destruct (enumerated_before k k'); cbn [lookup].
      * destruct (String.eqb_spec k key); [congruence|reflexivity].
      * now rewrite IH.
Qed.

Lemma set_property_fresh (k : string) (v : value)
    (props : list (string * value)) :
  array_index k = None -> ~ In k (map fst props) ->
  set_property k v props = props ++ [(k, v)].
Proof.
  intros Hi. induction props as [|[k' v'] rest IH]; cbn [set_property map fst In app].
  - reflexivity.
  - intros Hn. destruct (String.eqb_spec k' k) as [E|E]; [tauto|].
    unfold enumerated_before. rewrite Hi. now rewrite IH by tauto.
Qed.

Lemma add_channel_length (k : string) (frames : list (list (string * value))) :
  forall news, List.length (add_channel k news frames) = List.length frames.
Proof.
  induction frames as [|f fs IH]; intros [|v vs]; cbn [add_channel List.length];
    try reflexivity.
  now rewrite IH.
Qed.

Lemma objects_readable (frames : list (list (string * value))) :
  forallb readable (map VObj frames) = true.
Proof. induction frames; simpl; auto. Qed.

Lemma points_unchanged (cv : canvas) (n : nat) (k key : string)
    (frames : list (list (string * value))) :
  key <> k ->
  forall news i,
    gather (fun p j => [pen j (frame_x cv n j) (value_y cv (own p key))])
      (map VObj (add_channel k news frames)) i
    = gather (fun p j => [pen j (frame_x cv n j) (value_y cv (own p key))])
        (map VObj frames) i.
Proof.
  intros Hk. induction frames as [|f fs IH]; intros [|v vs] i;
    cbn [add_channel map gather]; try reflexivity.
  cbn [own]. now rewrite lookup_set_property_other, IH.
Qed.

Lemma remove_app_fresh (k : string) (keys : list string) :
  k <> "time"%string ->
  remove string_dec "time"%string (keys ++ [k])
  = remove string_dec "time"%string keys ++ [k].
Proof.
  intros Hk. rewrite remove_app. f_equal. cbn [remove].
  destruct (string_dec "time" k); [congruence|reflexivity].
Qed.

(** C6, as the code has it.  Take a line graph of two or more frames,
    each a mapping, and add to every frame a key that is not [time], is
    not an array index and is not a key of the first frame.  The effect
    then logs exactly what it logged before, so every earlier path keeps
    its geometry and its colour, followed by one more stroked path, in
    the colour of the palette at the number of earlier channels modulo
    4. *)
Theorem C6_channel_independence
    (cv : canvas) (frames : list (list (string * value)))
    (k : string) (news : list value) :
  (2 <= List.length frames)%nat ->
  List.length news = List.length frames ->
  k <> "time"%string ->
  array_index k = None ->
  ~ In k (map fst (nth 0 frames [])) ->
  channel_added cv frames k news.
Proof.
  intros Hn Hl Hk Hi Hfresh. unfold channel_added. cbv zeta.
  pose proof (objects_readable frames) as Hr.
  pose proof (objects_readable (add_channel k news frames)) as Hr'.
  assert (Hn' : (2 <= List.length (map VObj (add_channel k news frames)))%nat)
    by now rewrite length_map, add_channel_length.
  assert (Hm : (2 <= List.length (map VObj frames))%nat)
    by now rewrite length_map.
  rewrite !render_motion by assumption.
  rewrite !motion_readable by (assumption || lia).
  cbn [calls fst outcome snd].
  assert (Hcs : channel_set (map VObj (add_channel k news frames))
                = channel_set (map VObj frames) ++ [k]).
  { unfold channel_set.
    destruct frames as [|f0 fs]; [simpl in Hn; lia|].
    destruct news as [|v0 vs]; [simpl in Hl; lia|].
    cbn [add_channel map nth own_keys] in *.
    rewrite set_property_fresh, map_app by assumption.
    now apply remove_app_fresh. }
  rewrite Hcs, gather_app. cbn [gather]. rewrite app_nil_r, <- app_assoc.
  f_equal. f_equal. f_equal.
  apply gather_ext. intros key idx Hin.
  unfold channel_path. rewrite !length_map, add_channel_length.
  f_equal. f_equal. apply points_unchanged.
  intros ->. apply Hfresh.
  unfold channel_set in Hin. apply in_remove in Hin. destruct Hin as [Hin _].
  destruct frames as [|f0 fs]; [simpl in Hn; lia|]. exact Hin.
Qed.

Lemma C6_channel_independence_witness :
  channel_added mounted two_channels "c" [VNum (Fin (1 # 2)); VNum (Fin (1 # 4))].
Proof.
  apply C6_channel_independence.
  - simpl. lia.
  - reflexivity.
  - discriminate.
  - reflexivity.
  - simpl. intros [E|[E|[]]]; discriminate E.
Defined.

(** Where the added key lands among the channels. *)
Example added_key_examples :
  channel_set (map VObj (add_channel "c" [VNum 1; VNum 1] two_channels))
  = ["a"; "b"; "c"]%string
  /\ channel_set (map VObj (add_channel "0" [VNum 1; VNum 1] two_channels))
     = ["0"; "a"; "b"]%string
  /\ set_property "b" VNull [("a", VNum 0); ("b", VNum 1)]%string
     = [("a", VNum 0); ("b", VNull)]%string
  /\ set_property "2" VNull [("1", VNum 0); ("10", VNum 1); ("a", VNum 1)]%string
     = [("1", VNum 0); ("2", VNull); ("10", VNum 1); ("a", VNum 1)]%string.
Proof. repeat split; vm_compute; reflexivity. Qed.

(** C6 as stated fails for a key that is an array index: objects
    enumerate such a key first, so the added channel [0] is stroked first,
    in the first colour, and the earlier channels move one colour on. *)
Lemma C6_index_key_is_drawn_first :
  ~ channel_added mounted two_channels "0"
      [VNum (Fin (1 # 2)); VNum (Fin (1 # 4))].
Proof. unfold channel_added. intros E. vm_compute in E. discriminate E. Qed.

(** ** The bar chart *)

Lemma lookup_numeric (props : list (string * value)) (key : string) :
  numeric props = true -> In key (map fst props) ->
  exists n, or_else (lookup key props) (VNum 0) = VNum n.
Proof.
  induction props as [|[k v] rest IH]; cbn [numeric forallb map fst In lookup snd].
  - intros _ [].
  - intros Hn Hin. apply andb_true_iff in Hn. destruct Hn as [Hv Hrest].
    destruct (String.eqb_spec k key) as [E|E].
    + destruct (or_else v (VNum 0)); try discriminate. now eexists.
    + apply IH; [exact Hrest|]. destruct Hin; [contradiction|assumption].
Qed.

Lemma draw_bar_numeric (cv : canvas) (props : list (string * value))
    (barW : num) (key : string) (j : nat) :
  numeric props = true -> In key (map fst props) ->
  outcome (draw_bar cv (VObj props) barW key j) = Normal tt
  /\ bars (calls (draw_bar cv (VObj props) barW key j))
     = [bar_rect cv (VObj props) barW key j].
Proof.
  intros Hn Hin. destruct (lookup_numeric _ _ Hn Hin) as [n En].
  unfold draw_bar, bar_rect, get. cbn [readable own]. rewrite bind_ret, En.
  cbn [toFixed_2].
  rewrite !bind_ctx, bind_ret, !bind_ctx. split; reflexivity.
Qed.

Lemma bars_clear_and_rule (cv : canvas) : bars (clear_and_rule cv) = [].
Proof. reflexivity. Qed.

Lemma render_bar (cv : canvas) (props : list (string * value)) :
  props <> [] -> numeric props = true ->
  outcome (render (Some cv) (VObj props) "bar") = Normal tt
  /\ bars (calls (render (Some cv) (VObj props) "bar"))
     = gather (fun key j =>
                 [bar_rect cv (VObj props) (slot_width cv (List.length props))
                    key j])
         (map fst props) 0.
Proof.
  intros Hne Hn. unfold render. cbn [truthy negb].
  rewrite (bind_normal _ _ tt) by apply clear_and_grid_normal.
  rewrite clear_and_grid_calls. unfold chart_body.
  cbn [isArray String.eqb Ascii.eqb Bool.eqb andb typeof_object].
  unfold bar, Object_keys. cbn [readable own_keys]. rewrite bind_ret.
  rewrite length_map.
  destruct (Nat.eqb_spec (List.length props) 0) as [E|_];
    [destruct props; [contradiction|discriminate]|].
  unfold forEach. fold (slot_width cv (List.length props)).
  rewrite forEach_from_gather
    by (intros key j Hin; now apply draw_bar_numeric).
  cbn [outcome snd calls fst]. split; [reflexivity|].
  unfold bars at 1. rewrite flat_map_app. fold (bars (clear_and_rule cv)).
  rewrite bars_clear_and_rule, gather_flat_map. cbn [app].
  apply gather_ext. intros key j Hin. now apply draw_bar_numeric.
Qed.

Lemma slot_width_fin (cv : canvas) (m : nat) :
  m <> 0%nat ->
  slot_width cv m
  = fin (inject_Z (Z.of_N (width cv) - 20) / inject_Z (Z.of_nat m)).
Proof.
  intros Hm. unfold slot_width. rewrite num_sub_N.
  unfold num_of_nat, num_div, num_of_Z, Qis_zero. cbn [Qnum inject_Z].
  destruct (Z.eqb_spec (Z.of_nat m) 0); [lia|reflexivity].
Qed.

Lemma slot_restored (q : Q) : (fin q - 10 + 10)%num = fin q.
Proof.
  unfold num_sub, num_add, num_neg, num_of_Z, fin. f_equal.
  apply Qred_complete. rewrite !Qred_correct. ring.
Qed.

Lemma num_sum_repeat (q : Q) (m : nat) :
  num_sum (repeat (fin q) m) = fin (inject_Z (Z.of_nat m) * q).
Proof.
  induction m as [|m IH].
  - cbn [repeat num_sum fold_right]. rewrite <- (fin_Z 0). apply fin_eq.
    cbn [Z.of_nat]. ring.
  - cbn [repeat]. unfold num_sum in *. cbn [fold_right]. rewrite IH.
    unfold num_add, fin. f_equal. apply Qred_complete.
    rewrite !Qred_correct, Nat2Z.inj_succ, <- Z.add_1_r, inject_Z_plus. ring.
Qed.

Lemma slots_of_bars (cv : canvas) (data : value) (q : Q) (keys : list string) :
  forall i,
    map (fun r => (rect_width r + 10)%num)
      (gather (fun key j => [bar_rect cv data (fin q) key j]) keys i)
    = repeat (fin q) (List.length keys).
Proof.
  induction keys as [|key keys IH]; intros i; cbn [gather map app List.length repeat].
  - reflexivity.
  - rewrite IH. f_equal. unfold bar_rect, rect_width. apply slot_restored.
Qed.

Lemma overlap_apart (x1 w1 x2 w2 : Q) (y1 h1 y2 h2 : num) :
  (x1 <= x2)%Q -> (x1 <= x2 + w2)%Q ->
  (x1 + w1 <= x2)%Q -> (x1 + w1 <= x2 + w2)%Q ->
  overlap (Fin x1, y1, Fin w1, h1) (Fin x2, y2, Fin w2, h2) = false.
Proof.
  intros H1 H2 H3 H4. unfold overlap, span, num_add, fin. cbn [num_lt].
  destruct (negb (Qle_bool x1 (Qred (x1 + w1))));
    destruct (negb (Qle_bool x2 (Qred (x2 + w2))));
    cbn [num_lt]; apply andb_false_intro2; apply negb_false_iff;
    apply Qle_bool_iff; rewrite ?Qred_correct; assumption.
Qed.

Lemma bar_x_fin (q : Q) (j : nat) :
  (10 + num_of_nat j * fin q + 5)%num
  = Fin (Qred (Qred (inject_Z 10 + Qred (inject_Z (Z.of_nat j) * Qred q))
               + inject_Z 5)).
Proof. reflexivity. Qed.

Lemma bar_w_fin (q : Q) :
  (fin q - 10)%num = Fin (Qred (Qred q + Qred (- inject_Z 10))).
Proof. reflexivity. Qed.

Lemma bars_apart (cv : canvas) (data : value) (q : Q) (k1 k2 : string)
    (i j : nat) :
  (5 <= q)%Q -> (i < j)%nat ->
  overlap (bar_rect cv data (fin q) k1 i) (bar_rect cv data (fin q) k2 j)
  = false.
Proof.
  intros Hq Hij. unfold bar_rect. rewrite !bar_x_fin, !bar_w_fin.
  assert (Hi : (inject_Z (Z.of_nat i) + 1 <= inject_Z (Z.of_nat j))%Q).
  { rewrite <- (inject_Z_plus _ 1). rewrite <- Zle_Qle. lia. }
  assert (Hi0 : (0 <= inject_Z (Z.of_nat i))%Q).
  { change 0%Q with (inject_Z 0). rewrite <- Zle_Qle. lia. }
  set (a := inject_Z (Z.of_nat i)) in *. set (b := inject_Z (Z.of_nat j)) in *.
  apply overlap_apart; rewrite !Qred_correct;
    change (inject_Z 10) with 10%Q; change (inject_Z 5) with 5%Q; nra.
Qed.

(** C5, as the code has it.  For a bar chart of m >= 1 categories with
    numeric (or falsy) values, the effect completes and fills m rectangles; bar width
    plus the margin of 10, summed over the m bars, is exactly W - 20; and
    when the slot (W - 20) / m is at least 5 wide, no two bars overlap
    horizontally. *)
Theorem C5_bar_partition (cv : canvas) (props : list (string * value)) :
  props <> [] ->
  numeric props = true ->
  let rs := bars (calls (render (Some cv) (VObj props) "bar")) in
  outcome (render (Some cv) (VObj props) "bar") = Normal tt
  /\ List.length rs = List.length props
  /\ slots_fill cv rs
  /\ (5 * Z.of_nat (List.length props) <= Z.of_N (width cv) - 20 ->
      disjoint rs).
Proof.
  intros Hne Hn rs. destruct (render_bar cv props Hne Hn) as [Ho Hb].
  subst rs. rewrite Hb. clear Hb.
  assert (Hm : List.length props <> 0%nat) by (destruct props; simpl; congruence).
  rewrite slot_width_fin by assumption.
  set (q := (inject_Z (Z.of_N (width cv) - 20)
              / inject_Z (Z.of_nat (List.length props)))%Q).
  assert (Hpos : (0 < inject_Z (Z.of_nat (List.length props)))%Q).
  { change 0%Q with (inject_Z 0). rewrite <- Zlt_Qlt. lia. }
  split; [assumption|]. split; [|split].
  - now rewrite gather_singletons_length, length_map.
  - unfold slots_fill. rewrite slots_of_bars, length_map, num_sum_repeat.
    rewrite <- fin_Z. apply fin_eq. subst q. apply Qmult_div_r.
    intros E. rewrite E in Hpos. now apply Qlt_irrefl in Hpos.
  - intros Hw i j r1 r2 Hij E1 E2.
    apply gather_singletons_nth in E1. destruct E1 as [k1 [_ ->]].
    apply gather_singletons_nth in E2. destruct E2 as [k2 [_ ->]].
    apply bars_apart; [|lia]. subst q. apply Qle_shift_div_l; [assumption|].
    rewrite <- (inject_Z_mult 5), <- Zle_Qle. lia.
Qed.

Lemma C5_bar_partition_witness :
  let rs := bars (calls (render (Some mounted) categorical_scenario "bar")) in
  outcome (render (Some mounted) categorical_scenario "bar") = Normal tt
  /\ List.length rs = 2%nat
  /\ slots_fill mounted rs
  /\ (5 * 2 <= 800 - 20 -> disjoint rs).
Proof.
  apply (C5_bar_partition mounted
           [("openness", VNum (Fin (1 # 2))); ("pacing", VNum 1)]%string).
  - discriminate.
  - reflexivity.
Defined.

(** C5 as stated fails when the slots are narrower than 5: with 195
    categories on the 800 wide surface the slot is 4 wide and the bar
    width -6, so the first bar spans 9 to 15 and the second 13 to 19. *)
Lemma C5_crowded_bars_overlap :
  ~ disjoint (bars (calls (render (Some mounted) (crowded 195) "bar"))).
Proof.
  intros H.
  specialize (H 0%nat 1%nat
                (Fin 15, Fin 20, Fin (-6), Fin 160)
                (Fin 19, Fin 20, Fin (-6), Fin 160) (Nat.lt_0_1)).
  assert (E : overlap (Fin 15, Fin 20, Fin (-6), Fin 160)
                      (Fin 19, Fin 20, Fin (-6), Fin 160) = true)
    by (vm_compute; reflexivity).
  rewrite H in E; [discriminate E| |]; vm_compute; reflexivity.
Qed.

(** ** Determinism *)

Lemma step_agree (k : known) (s1 s2 : context) (c : call) :
  agree k s1 s2 -> reads_known k c = true ->
  snd (step s1 c) = snd (step s2 c)
  /\ agree (sets k c) (fst (step s1 c)) (fst (step s2 c)).
Proof.
  intros (Hs & Hw & Hf & Hfo & Hp) Hr.
  destruct c; cbn [step sets reads_known fst snd] in *;
    try (split; [reflexivity|]);
    try (destruct (positive_width w));
    try (destruct (num_finite x && num_finite y));
    unfold agree; cbn [strokeStyle lineWidth fillStyle font path
                       k_stroke k_width k_fill k_font k_path];
    try solve [intuition congruence].
  all: repeat match goal with
         | H : _ && _ = true |- _ => apply andb_true_iff in H; destruct H
         end.
  all: repeat match goal with
         | Hk : ?b = true, Hi : ?b = true -> _ |- _ =>
             rewrite (Hi Hk); clear Hk
         end.
  all: intuition.
Qed.

Lemma paint_agree (log : list call) :
  forall k s1 s2,
    agree k s1 s2 -> self_contained_from k log = true ->
    paint s1 log = paint s2 log.
Proof.
  induction log as [|c log IH]; intros k s1 s2 Ha Hc; cbn [paint].
  - reflexivity.
  - cbn [self_contained_from] in Hc. apply andb_true_iff in Hc.
    destruct Hc as [Hr Hc].
    destruct (step_agree k s1 s2 c Ha Hr) as [Em Ha'].
    rewrite Em. f_equal. now apply (IH (sets k c)).
Qed.

Lemma agree_nothing (s1 s2 : context) : agree nothing s1 s2.
Proof. unfold agree, nothing; cbn. intuition discriminate. Qed.

Lemma sets_knows_more (k k' : known) (c : call) :
  knows_more k k' -> knows_more (sets k c) (sets k' c).
Proof.
  intros (Hs & Hw & Hf & Hfo & Hp).
  destruct c; cbn [sets]; try (destruct (positive_width w));
    unfold knows_more; cbn [k_stroke k_width k_fill k_font k_path];
    intuition.
Qed.

Lemma reads_knows_more (k k' : known) (c : call) :
  knows_more k k' -> reads_known k c = true -> reads_known k' c = true.
Proof.
  intros (Hs & Hw & Hf & Hfo & Hp).
  destruct c; cbn [reads_known]; try reflexivity;
    rewrite ?andb_true_iff; intuition.
Qed.

Lemma self_contained_knows_more (log : list call) :
  forall k k',
    knows_more k k' ->
    self_contained_from k log = true -> self_contained_from k' log = true.
Proof.
  induction log as [|c log IH]; intros k k' Hk; cbn [self_contained_from].
  - reflexivity.
  - rewrite !andb_true_iff. intros [Hr Hc]. split.
    + now apply (reads_knows_more k).
    + apply (IH (sets k c)); [now apply sets_knows_more|assumption].
Qed.

Lemma nothing_knows_least (k : known) : knows_more nothing k.
Proof. unfold knows_more, nothing; cbn. intuition discriminate. Qed.

Lemma self_contained_from_app (l1 l2 : list call) :
  forall k,
    self_contained_from k l1 = true -> self_contained l2 ->
    self_contained_from k (l1 ++ l2) = true.
Proof.
  induction l1 as [|c l1 IH]; intros k H1 H2; cbn [app self_contained_from] in *.
  - apply (self_contained_knows_more l2 nothing); [apply nothing_knows_least|exact H2].
  - apply andb_true_iff in H1. destruct H1 as [Hr H1].
    rewrite Hr. cbn [andb]. now apply IH.
Qed.

Lemma self_contained_app (l1 l2 : list call) :
  self_contained l1 -> self_contained l2 -> self_contained (l1 ++ l2).
Proof. intros H1 H2. now apply self_contained_from_app. Qed.

Lemma self_contained_bind {A B} (m : M A) (f : A -> M B) :
  self_contained (calls m) ->
  (forall a, self_contained (calls (f a))) ->
  self_contained (calls (bind m f)).
Proof.
  intros Hm Hf. destruct m as [log [a|e]]; cbn [bind calls fst] in *.
  - specialize (Hf a). destruct (f a) as [log' r]. cbn [fst] in *.
    now apply self_contained_app.
  - exact Hm.
Qed.

Lemma self_contained_forEach {A} (f : A -> nat -> M unit) (l : list A) :
  (forall a j, self_contained (calls (f a j))) ->
  forall i, self_contained (calls (forEach_from f l i)).
Proof.
  intros Hf. induction l as [|a l IH]; intros i; cbn [forEach_from].
  - reflexivity.
  - apply self_contained_bind; [apply Hf|intros _; apply IH].
Qed.

Lemma self_contained_from_pens (pts tl : list call) :
  forallb is_pen pts = true ->
  forall k, self_contained_from k (pts ++ tl) = self_contained_from k tl.
Proof.
  induction pts as [|c pts IH]; cbn [forallb app self_contained_from]; intros Hp k.
  - reflexivity.
  - apply andb_true_iff in Hp. destruct Hp as [Hc Hp].
    destruct c; try discriminate; cbn [reads_known sets andb]; now apply IH.
Qed.

Lemma plot_points_pens (cv : canvas) (n : nat) (key : string)
    (frames : list value) :
  forall i,
    forallb is_pen (calls (forEach_from (plot_point cv n key) frames i)) = true.
Proof.
  induction frames as [|p frames IH]; intros i; cbn [forEach_from].
  - reflexivity.
  - unfold plot_point at 1, get. destruct (readable p).
    + rewrite bind_ret. specialize (IH (S i)).
      destruct (forEach_from (plot_point cv n key) frames (S i)) as [log r].
      destruct (i =? 0)%nat; cbn [bind ctx calls fst app forallb is_pen andb] in *;
        exact IH.
    + reflexivity.
Qed.

Lemma self_contained_clear_and_rule (cv : canvas) :
  self_contained (clear_and_rule cv).
Proof. reflexivity. Qed.

Lemma self_contained_plot_channel (cv : canvas) (frames : list value)
    (key : string) (idx : nat) :
  self_contained (calls (plot_channel cv frames key idx)).
Proof.
  unfold plot_channel, forEach. rewrite !bind_ctx. cbn [calls fst].
  pose proof (plot_points_pens cv (List.length frames) key frames 0) as Hp.
  destruct (forEach_from (plot_point cv (List.length frames) key) frames 0)
    as [pts [[]|e]]; cbn [bind ctx calls fst] in *;
    unfold self_contained; cbn [self_contained_from reads_known sets andb];
    change (positive_width 2) with true; cbv iota.
  - now rewrite (self_contained_from_pens pts [stroke] Hp).
  - rewrite <- (app_nil_r pts).
    now rewrite (self_contained_from_pens pts [] Hp).
Qed.

Lemma self_contained_draw_bar (cv : canvas) (data : value) (barW : num)
    (key : string) (j : nat) :
  self_contained (calls (draw_bar cv data barW key j)).
Proof.
  unfold draw_bar, get. destruct (readable data); [|reflexivity].
  rewrite bind_ret, !bind_ctx. cbn [calls fst].
  destruct (or_else (own data key) (VNum 0)); reflexivity.
Qed.

Lemma self_contained_chart_body (cv : canvas) (data : value) (type : string) :
  self_contained (calls (chart_body cv data type)).
Proof.
  unfold chart_body.
  destruct ((type =? "motion")%string && isArray data
            && (1 <? List.length (elements data))%nat).
  - unfold motion. apply self_contained_bind.
    + unfold Object_keys. now destruct (readable _).
    + intros keys0. apply self_contained_forEach.
      intros key idx. apply self_contained_plot_channel.
  - destruct ((type =? "bar")%string && typeof_object data); [|reflexivity].
    unfold bar. apply self_contained_bind.
    + unfold Object_keys. now destruct (readable _).
    + intros keys. destruct (List.length keys =? 0)%nat; [reflexivity|].
      apply self_contained_forEach. intros key j. apply self_contained_draw_bar.
Qed.

Lemma self_contained_render (canvasRef : option canvas) (data : value)
    (type : string) :
  self_contained (calls (render canvasRef data type)).
Proof.
  unfold render. destruct canvasRef as [cv|]; [|reflexivity].
  destruct (negb (truthy data)); [reflexivity|].
  apply self_contained_bind.
  - rewrite clear_and_grid_calls. apply self_contained_clear_and_rule.
  - intros _. apply self_contained_chart_body.
Qed.

Lemma paint_app (l1 l2 : list call) :
  forall s, paint s (l1 ++ l2) = paint s l1 ++ paint (after s l1) l2.
Proof.
  induction l1 as [|c l1 IH]; intros s; cbn [app paint after].
  - reflexivity.
  - now rewrite IH, app_assoc.
Qed.

(** C9. The marks a run of the effect makes (for every primitive its
    coordinates and sizes, and its style as well) are a function of the
    canvas, the data and the type alone: they are the same from any state
    of the context.  In particular a second run on the same inputs, which
    starts from the state the first run left the context in, makes the
    marks of the first run again. *)
Theorem C9_determinism
    (canvasRef : option canvas) (data : value) (type : string) (s : context) :
  let log := calls (render canvasRef data type) in
  (forall s', paint s' log = paint s log)
  /\ paint (after s log) log = paint s log
  /\ paint s (log ++ log) = paint s log ++ paint s log.
Proof.
  intros log.
  assert (H : forall s1 s2, paint s1 log = paint s2 log).
  { intros s1 s2. apply (paint_agree log nothing).
    - apply agree_nothing.
    - apply self_contained_render. }
  split; [intros; apply H|]. split; [apply H|].
  rewrite paint_app. f_equal. apply H.
Qed.

(** * More of the chart effect *)

(** ** Degenerate sizes and other types *)

Lemma render_present (cv : canvas) (data : value) (type : string) :
  truthy data = true ->
  render (Some cv) data type
  = (clear_and_rule cv ++ calls (chart_body cv data type),
     outcome (chart_body cv data type)).
Proof.
  intros Ht. unfold render. rewrite Ht. cbn [negb].
  rewrite (bind_normal _ _ tt) by apply clear_and_grid_normal.
  now rewrite clear_and_grid_calls.
Qed.

(** X1. Degenerate sizes: a line graph of fewer than two frames (whatever
    the frames are, [null] included) and a bar chart of no category draw
    the grid and nothing else, and complete. *)
Theorem degenerate_sizes_draw_only_the_grid (cv : canvas) (frames : list value) :
  (List.length frames <= 1)%nat ->
  render (Some cv) (VArr frames) "motion" = (clear_and_rule cv, Normal tt)
  /\ render (Some cv) (VObj []) "bar" = (clear_and_rule cv, Normal tt)
  /\ render (Some cv) (VArr []) "bar" = (clear_and_rule cv, Normal tt).
Proof.
  intros Hn. repeat split; rewrite render_present by reflexivity.
  - unfold chart_body. cbn [isArray elements String.eqb Ascii.eqb Bool.eqb andb].
    replace (1 <? List.length frames)%nat with false
      by (symmetry; apply Nat.ltb_ge; lia).
    cbn [calls outcome ret fst snd]. now rewrite app_nil_r.
  - change (chart_body cv (VObj []) "bar") with (@ret unit tt).
    cbn [calls outcome ret fst snd]. now rewrite app_nil_r.
  - change (chart_body cv (VArr []) "bar") with (@ret unit tt).
    cbn [calls outcome ret fst snd]. now rewrite app_nil_r.
Qed.

Lemma degenerate_sizes_draw_only_the_grid_witness :
  render (Some mounted) (VArr [VNull]) "motion"
  = (clear_and_rule mounted, Normal tt)
  /\ render (Some mounted) (VObj []) "bar" = (clear_and_rule mounted, Normal tt)
  /\ render (Some mounted) (VArr []) "bar" = (clear_and_rule mounted, Normal tt).
Proof.
  apply (degenerate_sizes_draw_only_the_grid mounted [VNull]). simpl. lia.
Defined.

(** X2. The chart body is skipped, with no exception, when the data is
    not of the shape the type asks for (a line graph of anything but an
    array, a bar chart of a string, a number or [true]) and when the type
    is neither ['motion'] nor ['bar']: the grid alone is drawn. *)
Theorem other_shapes_and_types_draw_only_the_grid
    (cv : canvas) (data : value) (type : string) :
  truthy data = true ->
  (type = "motion"%string /\ isArray data = false)
  \/ (type = "bar"%string /\ typeof_object data = false)
  \/ (type <> "motion"%string /\ type <> "bar"%string) ->
  render (Some cv) data type = (clear_and_rule cv, Normal tt).
Proof.
  intros Ht Hcase. rewrite render_present by assumption.
  assert (E : chart_body cv data type = ret tt).
  { unfold chart_body. destruct Hcase as [[-> Ha]|[[-> Ho]|[Hm Hb]]].
    - rewrite Ha. reflexivity.
    - rewrite Ho. reflexivity.
    - apply String.eqb_neq in Hm, Hb. now rewrite Hm, Hb. }
  rewrite E. cbn [calls outcome ret fst snd]. now rewrite app_nil_r.
Qed.

Lemma other_shapes_and_types_draw_only_the_grid_witness :
  render (Some mounted) (VStr "0.5") "bar" = (clear_and_rule mounted, Normal tt).
Proof.
  apply other_shapes_and_types_draw_only_the_grid.
  - reflexivity.
  - right. left. split; reflexivity.
Defined.

(** ** Frames that cannot be read *)

Lemma plot_point_unreadable (cv : canvas) (n : nat) (key : string)
    (p : value) (i : nat) :
  readable p = false -> plot_point cv n key p i = ([], Throw cannot_read).
Proof. intros Hr. unfold plot_point, get. now rewrite Hr. Qed.

Lemma plot_points_outcome (cv : canvas) (n : nat) (key : string)
    (frames : list value) :
  forall i,
    outcome (forEach_from (plot_point cv n key) frames i)
    = if forallb readable frames then Normal tt else Throw cannot_read.
Proof.
  induction frames as [|p frames IH]; intros i; cbn [forEach_from forallb].
  - reflexivity.
  - destruct (readable p) eqn:Hr; cbn [andb].
    + rewrite plot_point_readable by assumption.
      rewrite (bind_normal _ _ tt) by reflexivity. cbn [outcome snd]. apply IH.
    + now rewrite plot_point_unreadable by assumption.
Qed.

Lemma plot_channel_shape (cv : canvas) (frames : list value) (key : string)
    (idx : nat) :
  exists pts,
    forallb is_pen pts = true
    /\ plot_channel cv frames key idx
       = if forallb readable frames
         then ([beginPath;
                set_strokeStyle (nth (idx mod List.length colors) colors EmptyString);
                set_lineWidth 2] ++ pts ++ [stroke], Normal tt)
         else ([beginPath;
                set_strokeStyle (nth (idx mod List.length colors) colors EmptyString);
                set_lineWidth 2] ++ pts, Throw cannot_read).
Proof.
  pose proof (plot_points_pens cv (List.length frames) key frames 0) as Hp.
  pose proof (plot_points_outcome cv (List.length frames) key frames 0) as Ho.
  unfold plot_channel, forEach. rewrite !bind_ctx.
  destruct (forEach_from (plot_point cv (List.length frames) key) frames 0)
    as [pts r]. cbn [calls outcome fst snd] in *. exists pts. split; [assumption|].
  subst r. destruct (forallb readable frames); reflexivity.
Qed.

Lemma forEach_from_first_throws {A} (f : A -> nat -> M unit) (a : A)
    (l : list A) (i : nat) (e : exn) :
  outcome (f a i) = Throw e ->
  forEach_from f (a :: l) i = (calls (f a i), Throw e).
Proof. intros E. cbn [forEach_from]. now apply bind_throw. Qed.

(** X3. When a line graph of two or more frames completes and when it
    throws: it throws as soon as the first frame is [undefined] or
    [null]; otherwise it completes when there is no channel to draw or
    when every frame can be read, and throws on the first frame that
    cannot. *)
Theorem line_graph_outcome (cv : canvas) (frames : list value) :
  (2 <= List.length frames)%nat ->
  outcome (render (Some cv) (VArr frames) "motion")
  = if readable (nth 0 frames VUndefined)
    then match channel_set frames with
         | [] => Normal tt
         | _ :: _ =>
             if forallb readable frames then Normal tt else Throw cannot_read
         end
    else Throw cannot_convert.
Proof.
  intros Hn. rewrite render_motion by assumption. cbn [outcome snd].
  unfold motion, Object_keys. cbn [elements].
  destruct (readable (nth 0 frames VUndefined)) eqn:H0; [|reflexivity].
  rewrite bind_ret, filter_not_time. fold (channel_set frames).
  destruct (channel_set frames) as [|k ks]; [reflexivity|].
  unfold forEach.
  destruct (plot_channel_shape cv frames k 0) as [pts [_ E]].
  destruct (forallb readable frames) eqn:Hr.
  - rewrite forEach_from_gather; [reflexivity|].
    intros key j _. now rewrite plot_channel_readable.
  - rewrite (forEach_from_first_throws _ _ _ _ cannot_read); [reflexivity|].
    now rewrite E.
Qed.

Lemma line_graph_outcome_witness :
  outcome (render (Some mounted)
             (VArr [VObj [("a", VNum 1)]%string; VNull]) "motion")
  = Throw cannot_read.
Proof.
  exact (line_graph_outcome mounted [VObj [("a", VNum 1)]%string; VNull] (le_n 2)).
Defined.

Lemma paint_quiet (log : list call) :
  forallb is_quiet log = true -> forall s, paint s log = [].
Proof.
  induction log as [|c log IH]; cbn [forallb paint]; intros Hq s.
  - reflexivity.
  - apply andb_true_iff in Hq. destruct Hq as [Hc Hq].
    rewrite IH by assumption.
    destruct c; try discriminate; cbn [step snd];
      try reflexivity.
Qed.

Lemma pens_are_quiet (pts : list call) :
  forallb is_pen pts = true -> forallb is_quiet pts = true.
Proof.
  induction pts as [|c pts IH]; cbn [forallb]; [reflexivity|].
  intros H. apply andb_true_iff in H. destruct H as [Hc Hp].
  rewrite IH by assumption. now destruct c.
Qed.

(** X4. All or nothing: when some frame of a line graph of two or more
    frames is [undefined] or [null], no channel at all reaches the
    surface, whatever the state of the context: the marks are those of
    the grid.  (The path of the first channel is cut short before its
    [stroke], and the later channels are never begun.) *)
Theorem broken_sequence_paints_no_channel
    (cv : canvas) (frames : list value) (s : context) :
  (2 <= List.length frames)%nat ->
  forallb readable frames = false ->
  paint s (calls (render (Some cv) (VArr frames) "motion"))
  = paint s (clear_and_rule cv).
Proof.
  intros Hn Hr. rewrite render_motion by assumption. cbn [calls fst].
  rewrite paint_app.
  assert (Hq : forallb is_quiet (calls (motion cv (VArr frames))) = true).
  { unfold motion, Object_keys. cbn [elements].
    destruct (readable (nth 0 frames VUndefined)); [|reflexivity].
    rewrite bind_ret, filter_not_time. fold (channel_set frames).
    destruct (channel_set frames) as [|k ks]; [reflexivity|].
    unfold forEach.
    destruct (plot_channel_shape cv frames k 0) as [pts [Hp E]].
    rewrite Hr in E.
    rewrite (forEach_from_first_throws _ _ _ _ cannot_read) by now rewrite E.
    rewrite E. cbn [calls fst app forallb is_quiet andb].
    now apply pens_are_quiet. }
  rewrite (paint_quiet _ Hq). apply app_nil_r.
Qed.

Lemma broken_sequence_paints_no_channel_witness :
  paint fresh
    (calls (render (Some mounted)
              (VArr [VObj [("a", VNum 0)]%string;
                     VObj [("a", VNum 1)]%string; VNull]) "motion"))
  = paint fresh (clear_and_rule mounted).
Proof.
  apply broken_sequence_paints_no_channel.
  - simpl. lia.
  - reflexivity.
Defined.

(** ** Categories that are not numbers *)

Lemma forEach_from_outcome {A} (f : A -> nat -> M unit) (ok : A -> bool)
    (e : exn) (l : list A) :
  (forall a j, In a l ->
     outcome (f a j) = if ok a then Normal tt else Throw e) ->
  forall i,
    outcome (forEach_from f l i)
    = if forallb ok l then Normal tt else Throw e.
Proof.
  induction l as [|a l IH]; intros Hf i; cbn [forEach_from forallb].
  - reflexivity.
  - pose proof (Hf a i (or_introl eq_refl)) as Ha.
    destruct (ok a); cbn [andb].
    + rewrite (bind_normal _ _ tt) by assumption. cbn [outcome snd].
      apply IH. intros; apply Hf; now right.
    + now rewrite (bind_throw _ _ e).
Qed.

Lemma draw_bar_outcome (cv : canvas) (props : list (string * value))
    (barW : num) (key : string) (j : nat) :
  outcome (draw_bar cv (VObj props) barW key j)
  = if counts_as_number (lookup key props)
    then Normal tt else Throw not_a_function.
Proof.
  unfold draw_bar, get, counts_as_number. cbn [readable own].
  rewrite bind_ret, !bind_ctx. cbn [outcome snd].
  destruct (or_else (lookup key props) (VNum 0)); reflexivity.
Qed.

Lemma lookup_NoDup (props : list (string * value)) (k : string) (v : value) :
  NoDup (map fst props) -> In (k, v) props -> lookup k props = v.
Proof.
  induction props as [|[k' v'] rest IH]; cbn [map fst In lookup]; intros Hd Hin.
  - contradiction.
  - inversion Hd as [|? ? Hnot Hd']; subst.
    destruct Hin as [E|Hin].
    + inversion E; subst. now rewrite String.eqb_refl.
    + destruct (String.eqb_spec k' k) as [->|_].
      * exfalso. apply Hnot. apply (in_map fst) in Hin. exact Hin.
      * now apply IH.
Qed.

Lemma numeric_by_lookup (props : list (string * value)) :
  NoDup (map fst props) ->
  forallb (fun key => counts_as_number (lookup key props)) (map fst props)
  = numeric props.
Proof.
  intros Hd. unfold numeric.
  assert (H : forall l, incl l props ->
            forallb (fun key => counts_as_number (lookup key props)) (map fst l)
            = forallb (fun kv => match or_else (snd kv) (VNum 0) with
                                 | VNum _ => true
                                 | _ => false
                                 end) l).
  { induction l as [|[k v] l IH]; intros Hl; cbn [forallb map fst snd].
    - reflexivity.
    - rewrite IH by (intros x Hx; apply Hl; now right).
      rewrite (lookup_NoDup props k v Hd) by (apply Hl; now left).
      reflexivity. }
  apply H. apply incl_refl.
Qed.

(** X5. When a bar chart of a mapping completes and when it throws: it
    completes exactly when every category value is a number or is falsy;
    at the first category whose value is anything else (a string, [true],
    an array, an object) [val.toFixed] is not a function and the effect
    throws a TypeError. *)
Theorem bar_chart_outcome (cv : canvas) (props : list (string * value)) :
  NoDup (map fst props) ->
  outcome (render (Some cv) (VObj props) "bar")
  = if numeric props then Normal tt else Throw not_a_function.
Proof.
  intros Hd. rewrite render_present by reflexivity. cbn [outcome snd].
  unfold chart_body. cbn [isArray String.eqb Ascii.eqb Bool.eqb andb typeof_object].
  unfold bar, Object_keys. cbn [readable own_keys]. rewrite bind_ret, length_map.
  destruct (Nat.eqb_spec (List.length props) 0) as [E|_].
  - now destruct props.
  - unfold forEach.
    rewrite (forEach_from_outcome _
               (fun key => counts_as_number (lookup key props)) not_a_function).
    + now rewrite numeric_by_lookup.
    + intros key j _. apply draw_bar_outcome.
Qed.

Lemma bar_chart_outcome_witness :
  outcome (render (Some mounted)
             (VObj [("openness", VNum (Fin (1 # 2))); ("pacing", VStr "fast")]%string)
             "bar")
  = Throw not_a_function.
Proof.
  apply (bar_chart_outcome mounted
           [("openness", VNum (Fin (1 # 2))); ("pacing", VStr "fast")]%string).
  repeat constructor; simpl; intuition discriminate.
Defined.

(** ** Where values land *)

Lemma counted_number (v : Q) :
  exists v', or_else (VNum (Fin v)) (VNum 0) = VNum (Fin v') /\ (v' == v)%Q.
Proof.
  unfold or_else. cbn [truthy]. destruct (Qis_zero v) eqn:Hz; cbn [negb].
  - exists (inject_Z 0). split; [reflexivity|].
    unfold Qis_zero in Hz. apply Z.eqb_eq in Hz.
    unfold Qeq. cbn [Qnum Qden inject_Z]. rewrite Hz. reflexivity.
  - exists v. split; reflexivity.
Qed.

Lemma value_y_number (cv : canvas) (v : Q) :
  exists y,
    value_y cv (VNum (Fin v)) = Fin y
    /\ (y == inject_Z (Z.of_N (height cv) - 20)
             - v * inject_Z (Z.of_N (height cv) - 40))%Q.
Proof.
  unfold value_y. destruct (counted_number v) as [v' [-> Hv]].
  cbn [to_number]. rewrite !num_sub_N.
  eexists. split; [reflexivity|].
  rewrite !Qred_correct, Hv. reflexivity.
Qed.

Lemma num_lt_Fin (p q : Q) : num_lt (Fin p) (Fin q) = true <-> (p < q)%Q.
Proof.
  cbn [num_lt]. rewrite negb_true_iff. split.
  - intros Hb. apply Qnot_le_lt. intros Hle.
    apply Qle_bool_iff in Hle. congruence.
  - intros Hlt. destruct (Qle_bool q p) eqn:E; [|reflexivity].
    apply Qle_bool_iff in E. exfalso. exact (Qlt_not_le _ _ Hlt E).
Qed.

Lemma inject_Z_minus (a b : Z) :
  (inject_Z (a - b) == inject_Z a - inject_Z b)%Q.
Proof. unfold Zminus. now rewrite inject_Z_plus, inject_Z_opp. Qed.

(** X6. Where the line graph puts a value, on a canvas higher than 40:
    a value between 0 and 1 is plotted inside the plot band, between
    y = 20 and y = H - 20; nothing is clamped, so a value of 2 or more is
    plotted above the band (y < 20) and a value of -1 or less below the
    baseline (y > H - 20). *)
Theorem values_in_range_are_plotted_in_the_band
    (cv : canvas) (n : nat) (key : string) (p : value) (i : nat) (v : Q) :
  readable p = true ->
  own p key = VNum (Fin v) ->
  40 < Z.of_N (height cv) ->
  let H := inject_Z (Z.of_N (height cv)) in
  exists x y,
    plot_point cv n key p i = ([pen i x y], Normal tt)
    /\ ((0 <= v /\ v <= 1)%Q ->
        exists q, y = Fin q /\ (20 <= q /\ q <= H - 20)%Q)
    /\ ((2 <= v)%Q -> num_lt y 20 = true)
    /\ ((v <= - (1))%Q -> num_lt (num_of_N (height cv) - 20) y = true).
Proof.
  intros Hr Hv Hh H. rewrite plot_point_readable by assumption. rewrite Hv.
  destruct (value_y_number cv v) as [y [-> Hy]].
  exists (frame_x cv n i), (Fin y). split; [reflexivity|].
  assert (Hy' : (y == (H - 20) - v * (H - 40))%Q).
  { rewrite Hy. subst H. now rewrite !inject_Z_minus. }
  assert (Hpos : (40 < H)%Q).
  { subst H. change 40%Q with (inject_Z 40). now rewrite <- Zlt_Qlt. }
  split; [|split].
  - intros [H0 H1]. exists y. split; [reflexivity|]. rewrite Hy'. split; nra.
  - intros H2. change (num_of_Z 20) with (Fin (inject_Z 20)).
    apply num_lt_Fin. rewrite Hy'. change (inject_Z 20) with 20%Q. nra.
  - intros Hm. rewrite num_sub_N. change (num_of_Z ?z) with (Fin (inject_Z z)).
    apply num_lt_Fin. rewrite Hy', inject_Z_minus. fold H.
    change (inject_Z 20) with 20%Q. nra.
Qed.

Lemma values_in_range_are_plotted_in_the_band_witness :
  exists x y,
    plot_point mounted 2 "a" (VObj [("a", VNum (Fin (1 # 2)))]%string) 1
    = ([pen 1 x y], Normal tt)
    /\ ((0 <= 1 # 2 /\ 1 # 2 <= 1)%Q ->
        exists q, y = Fin q /\ (20 <= q /\ q <= 200 - 20)%Q)
    /\ ((2 <= 1 # 2)%Q -> num_lt y 20 = true)
    /\ ((1 # 2 <= - (1))%Q -> num_lt (num_of_N (height mounted) - 20) y = true).
Proof.
  apply (values_in_range_are_plotted_in_the_band mounted 2 "a"
           (VObj [("a", VNum (Fin (1 # 2)))]%string) 1 (1 # 2)).
  - reflexivity.
  - reflexivity.
  - reflexivity.
Defined.

(** X7. Where the bar chart puts a value, on a canvas higher than 40:
    for a value between 0 and 1 the rectangle has its origin inside the
    plot band, between y = 20 and y = H - 20, and a height between 0 and
    H - 40; nothing is clamped, so a value of 2 or more puts the origin
    above the band (y < 20), and a value of -1 or less gives a rectangle
    of negative height whose origin is below the baseline (y > H - 20).
    In each case the callback completes. *)
Theorem bar_of_a_value_in_range_stays_in_the_band
    (cv : canvas) (data : value) (barW : num) (key : string) (j : nat) (v : Q) :
  readable data = true ->
  own data key = VNum (Fin v) ->
  40 < Z.of_N (height cv) ->
  let H := inject_Z (Z.of_N (height cv)) in
  exists x y w h,
    outcome (draw_bar cv data barW key j) = Normal tt
    /\ bars (calls (draw_bar cv data barW key j)) = [(x, y, w, h)]
    /\ ((0 <= v /\ v <= 1)%Q ->
        exists qy qh,
          y = Fin qy /\ h = Fin qh
          /\ (20 <= qy /\ qy <= H - 20)%Q /\ (0 <= qh /\ qh <= H - 40)%Q)
    /\ ((2 <= v)%Q -> num_lt y 20 = true)
    /\ ((v <= - (1))%Q ->
        num_lt h 0 = true /\ num_lt (num_of_N (height cv) - 20) y = true).
Proof.
  intros Hr Hv Hh H. unfold draw_bar, get. rewrite Hr, bind_ret, Hv.
  destruct (counted_number v) as [v' [-> Hv']].
  cbn [to_number toFixed_2]. rewrite !num_sub_N.
  rewrite !bind_ctx, bind_ret, !bind_ctx.
  eexists. eexists. eexists. eexists.
  split; [reflexivity|]. split; [reflexivity|].
  assert (E40 : (inject_Z (Z.of_N (height cv) - 40) == H - 40)%Q).
  { subst H. now rewrite inject_Z_minus. }
  assert (E20 : (inject_Z (Z.of_N (height cv) - 20) == H - 20)%Q).
  { subst H. now rewrite inject_Z_minus. }
  assert (Hpos : (40 < H)%Q).
  { subst H. change 40%Q with (inject_Z 40). now rewrite <- Zlt_Qlt. }
  split; [|split].
  - intros [H0 H1]. eexists. eexists.
    split; [reflexivity|]. split; [reflexivity|].
    rewrite !Qred_correct, Hv', E40, E20. repeat split; nra.
  - intros H2. change (num_of_Z 20) with (Fin (inject_Z 20)).
    apply num_lt_Fin. rewrite !Qred_correct, Hv', E40, E20.
    change (inject_Z 20) with 20%Q. nra.
  - intros Hm. change (num_of_Z ?z) with (Fin (inject_Z z)). split.
    + apply num_lt_Fin. rewrite !Qred_correct, Hv', E40.
      change (inject_Z 0) with 0%Q. nra.
    + apply num_lt_Fin. rewrite !Qred_correct, Hv', E40, E20. nra.
Qed.

Lemma bar_of_a_value_in_range_stays_in_the_band_witness :
  exists x y w h,
    outcome (draw_bar mounted categorical_scenario 390 "openness" 0) = Normal tt
    /\ bars (calls (draw_bar mounted categorical_scenario 390 "openness" 0))
       = [(x, y, w, h)]
    /\ ((0 <= 1 # 2 /\ 1 # 2 <= 1)%Q ->
        exists qy qh,
          y = Fin qy /\ h = Fin qh
          /\ (20 <= qy /\ qy <= 200 - 20)%Q /\ (0 <= qh /\ qh <= 200 - 40)%Q)
    /\ ((2 <= 1 # 2)%Q -> num_lt y 20 = true)
    /\ ((1 # 2 <= - (1))%Q ->
        num_lt h 0 = true /\ num_lt (num_of_N (height mounted) - 20) y = true).
Proof.
  apply (bar_of_a_value_in_range_stays_in_the_band mounted categorical_scenario
           390 "openness" 0 (1 # 2)).
  - reflexivity.
  - reflexivity.
  - reflexivity.
Defined.

Lemma frame_x_fin (cv : canvas) (n i : nat) :
  (2 <= n)%nat ->
  exists x,
    frame_x cv n i = Fin x
    /\ (x == inject_Z (Z.of_nat i) / inject_Z (Z.of_nat n - 1)
             * inject_Z (Z.of_N (width cv)))%Q.
Proof.
  intros Hn. unfold frame_x, num_of_nat, num_of_N. rewrite num_sub_Z.
  unfold num_div, num_mul, num_of_Z, Qis_zero. cbn [Qnum inject_Z].
  destruct (Z.eqb_spec (Z.of_nat n - 1) 0); [lia|].
  eexists. split; [reflexivity|]. now rewrite !Qred_correct.
Qed.

(** X8. In a line graph of n >= 2 frames the x of the frames runs from
    left to right inside the canvas: for frames i < j the two points are
    put at 0 <= x_i <= x_j <= W, and x_i < x_j when the canvas has a
    width. *)
Theorem frames_run_left_to_right
    (cv : canvas) (n : nat) (key : string) (p q : value) (i j : nat) :
  (i < j)%nat -> (j < n)%nat ->
  readable p = true -> readable q = true ->
  let W := inject_Z (Z.of_N (width cv)) in
  exists xi xj yi yj,
    plot_point cv n key p i = ([pen i (Fin xi) yi], Normal tt)
    /\ plot_point cv n key q j = ([pen j (Fin xj) yj], Normal tt)
    /\ (0 <= xi)%Q /\ (xi <= xj)%Q /\ (xj <= W)%Q
    /\ ((0 < W)%Q -> (xi < xj)%Q).
Proof.
  intros Hij Hjn Hp Hq W.
  assert (Hn : (2 <= n)%nat) by lia.
  rewrite !plot_point_readable by assumption.
  destruct (frame_x_fin cv n i Hn) as [xi [-> Hxi]].
  destruct (frame_x_fin cv n j Hn) as [xj [-> Hxj]].
  exists xi, xj, (value_y cv (own p key)), (value_y cv (own q key)).
  split; [reflexivity|]. split; [reflexivity|].
  fold W in Hxi, Hxj.
  set (d := inject_Z (Z.of_nat n - 1)) in *.
  set (a := inject_Z (Z.of_nat i)) in *. set (b := inject_Z (Z.of_nat j)) in *.
  assert (Hd : (0 < d)%Q).
  { subst d. change 0%Q with (inject_Z 0). rewrite <- Zlt_Qlt. lia. }
  assert (Ha : (0 <= a)%Q).
  { subst a. change 0%Q with (inject_Z 0). rewrite <- Zle_Qle. lia. }
  assert (Hab : (a < b)%Q) by (subst a b; rewrite <- Zlt_Qlt; lia).
  assert (Hbd : (b <= d)%Q) by (subst b d; rewrite <- Zle_Qle; lia).
  assert (HW : (0 <= W)%Q).
  { subst W. change 0%Q with (inject_Z 0). rewrite <- Zle_Qle. lia. }
  assert (Hfa : (0 <= a / d)%Q) by (apply Qle_shift_div_l; [assumption|]; nra).
  assert (Hfab : (a / d < b / d)%Q).
  { apply Qlt_shift_div_l; [assumption|].
    unfold Qdiv. rewrite <- Qmult_assoc, (Qmult_comm (/ d)), Qmult_inv_r, Qmult_1_r;
      [assumption|]. intros E. rewrite E in Hd. now apply Qlt_irrefl in Hd. }
  assert (Hfb : (b / d <= 1)%Q) by (apply Qle_shift_div_r; [assumption|]; nra).
  rewrite Hxi, Hxj. repeat split; try nra.
Qed.

Lemma frames_run_left_to_right_witness :
  exists xi xj yi yj,
    plot_point mounted 3 "a" (VObj []) 1 = ([pen 1 (Fin xi) yi], Normal tt)
    /\ plot_point mounted 3 "a" (VObj []) 2 = ([pen 2 (Fin xj) yj], Normal tt)
    /\ (0 <= xi)%Q /\ (xi <= xj)%Q /\ (xj <= 800)%Q
    /\ ((0 < 800)%Q -> (xi < xj)%Q).
Proof.
  apply (frames_run_left_to_right mounted 3 "a" (VObj []) (VObj []) 1 2).
  - lia.
  - lia.
  - reflexivity.
  - reflexivity.
Defined.

Lemma gather_singletons_In {A B} (g : A -> nat -> B) (l : list A) (i : nat)
    (r : B) :
  In r (gather (fun a j => [g a j]) l i) ->
  exists a n, (n < List.length l)%nat /\ r = g a (i + n)%nat.
Proof.
  intros Hin. apply In_nth_error in Hin. destruct Hin as [n En].
  pose proof En as En'. apply gather_singletons_nth in En'.
  destruct En' as [a [Ha ->]]. exists a, n. split; [|reflexivity].
  apply nth_error_Some. congruence.
Qed.

(** X9. Bars stay inside the canvas: in a bar chart of m >= 1 numeric
    categories whose slot (W - 20) / m is at least 10 wide, every bar has
    a width of 0 or more, starts at x = 15 or further right and ends
    inside the run of the slots, at x = W - 10 or further left. *)
Theorem bars_stay_inside_the_canvas
    (cv : canvas) (props : list (string * value)) (r : rect) :
  props <> [] ->
  numeric props = true ->
  10 * Z.of_nat (List.length props) <= Z.of_N (width cv) - 20 ->
  In r (bars (calls (render (Some cv) (VObj props) "bar"))) ->
  exists x y w h,
    r = (Fin x, y, Fin w, h)
    /\ (15 <= x)%Q /\ (0 <= w)%Q
    /\ (x + w <= inject_Z (Z.of_N (width cv)) - 10)%Q.
Proof.
  intros Hne Hn Hw Hin. destruct (render_bar cv props Hne Hn) as [_ Hb].
  rewrite Hb in Hin. clear Hb.
  assert (Hm : List.length props <> 0%nat) by (destruct props; simpl; congruence).
  rewrite slot_width_fin in Hin by assumption.
  apply gather_singletons_In in Hin. destruct Hin as [key [j [Hj ->]]].
  rewrite length_map in Hj. cbn [Nat.add].
  set (m := inject_Z (Z.of_nat (List.length props))) in *.
  set (q := (inject_Z (Z.of_N (width cv) - 20) / m)%Q).
  unfold bar_rect. rewrite bar_x_fin, bar_w_fin.
  eexists. eexists. eexists. eexists. split; [reflexivity|].
  assert (Hpos : (0 < m)%Q).
  { subst m. change 0%Q with (inject_Z 0). rewrite <- Zlt_Qlt. lia. }
  assert (Hmq : (m * q == inject_Z (Z.of_N (width cv)) - 20)%Q).
  { subst q. rewrite Qmult_div_r.
    - unfold Zminus. now rewrite inject_Z_plus, inject_Z_opp.
    - intros E. rewrite E in Hpos. now apply Qlt_irrefl in Hpos. }
  assert (Hq : (10 <= q)%Q).
  { subst q. apply Qle_shift_div_l; [assumption|].
    subst m. rewrite <- (inject_Z_mult 10), <- Zle_Qle. lia. }
  assert (Hj0 : (0 <= inject_Z (Z.of_nat j))%Q).
  { change 0%Q with (inject_Z 0). rewrite <- Zle_Qle. lia. }
  assert (Hjm : (inject_Z (Z.of_nat j) + 1 <= m)%Q).
  { subst m. rewrite <- (inject_Z_plus _ 1), <- Zle_Qle. lia. }
  rewrite !Qred_correct.
  change (inject_Z 10) with 10%Q. change (inject_Z 5) with 5%Q.
  set (a := inject_Z (Z.of_nat j)) in *.
  repeat split; nra.
Qed.

Lemma bars_stay_inside_the_canvas_witness :
  exists x y w h,
    (Fin 405, Fin 20, Fin 380, Fin 160) = (Fin x, y, Fin w, h)
    /\ (15 <= x)%Q /\ (0 <= w)%Q /\ (x + w <= 800 - 10)%Q.
Proof.
  apply (bars_stay_inside_the_canvas mounted
           [("openness", VNum (Fin (1 # 2))); ("pacing", VNum 1)]%string).
  - discriminate.
  - reflexivity.
  - simpl. lia.
  - vm_compute. right. left. reflexivity.
Defined.

(** ** Palette and labels *)

(** X10. The palette cycles with period 4: the channel at position
    idx + 4 is drawn exactly as the channel at position idx would be, and
    the stroke style assigned is always one of the four colours. *)
Theorem palette_cycles
    (cv : canvas) (frames : list value) (key : string) (idx : nat) :
  plot_channel cv frames key (idx + 4) = plot_channel cv frames key idx
  /\ In (nth (idx mod List.length colors) colors EmptyString) colors.
Proof.
  split.
  - unfold plot_channel. cbn [colors List.length].
    replace ((idx + 4) mod 4)%nat with (idx mod 4)%nat; [reflexivity|].
    now rewrite <- (Nat.Div0.mod_add idx 1 4).
  - apply nth_In. cbn [colors List.length]. apply Nat.mod_upper_bound. lia.
Qed.

(** X11. The label under a bar is the first word of the category name:
    the name up to its first underscore or space, which is left out with
    all that follows; a name with neither is its own label. *)
Theorem bar_label_is_the_first_word (key : string) :
  let label := split_space_first (replace_underscores key) in
  exists rest,
    key = (label ++ rest)%string
    /\ (forall c, In c (list_ascii_of_string label) ->
          c <> "_"%char /\ c <> " "%char)
    /\ (rest = EmptyString
        \/ exists r, rest = String "_" r \/ rest = String " " r).
Proof.
  induction key as [|c key IH]; cbn [replace_underscores split_space_first].
  - exists EmptyString. split; [reflexivity|]. split; [intros c []|now left].
  - destruct IH as [rest [E [Hno Hrest]]].
    destruct (Ascii.eqb_spec c "_") as [->|Hu].
    + cbn [Ascii.eqb Bool.eqb]. exists (String "_" key).
      split; [reflexivity|]. split; [intros c []|]. right. exists key. now left.
    + destruct (Ascii.eqb_spec c " ") as [->|Hs].
      * exists (String " " key).
        split; [reflexivity|]. split; [intros c []|]. right. exists key. now right.
      * exists rest. cbn [append list_ascii_of_string].
        split; [now rewrite <- E|]. split; [|assumption].
        intros c' [<-|Hin]; [now split|now apply Hno].
Qed.

(** * The upload form *)

Lemma prefix_append (sub s : string) :
  prefix sub s = true <-> exists after, s = (sub ++ after)%string.
Proof.
  revert s. induction sub as [|a sub IH]; intros s.
  - split; [intros _; now exists s|intros _; now destruct s].
  - destruct s as [|b s]; cbn [prefix append].
    + split; [discriminate|intros [after E]; discriminate E].
    + destruct (ascii_dec a b) as [->|Hab].
      * rewrite IH. split; intros [after E]; exists after.
        -- now rewrite E.
        -- now inversion E.
      * split; [discriminate|]. intros [after E]. inversion E. congruence.
Qed.

Lemma includes_contains (s sub : string) :
  includes s sub = true <-> contains s sub.
Proof.
  unfold contains. induction s as [|c s IH]; cbn [includes].
  - rewrite orb_false_r, prefix_append. split.
    + intros [after E]. exists EmptyString, after. exact E.
    + intros [before [after E]]. destruct before; [now exists after|discriminate E].
  - rewrite orb_true_iff, prefix_append, IH. split.
    + intros [[after E]|[before [after E]]].
      * exists EmptyString, after. exact E.
      * exists (String c before), after. cbn [append]. now rewrite E.
    + intros [before [after E]]. destruct before as [|b before].
      * left. now exists after.
      * right. exists before, after. cbn [append] in E. now inversion E.
Qed.

Lemma home_after_app (s : home_state) (l1 l2 : list event) :
  home_after s (l1 ++ l2) = home_after (home_after s l1) l2.
Proof. apply fold_left_app. Qed.

Lemma home_after_neutral (log : list event) :
  forallb sets_nothing log = true -> forall s, home_after s log = s.
Proof.
  induction log as [|ev log IH]; cbn [forallb]; intros H s; [reflexivity|].
  apply andb_true_iff in H. destruct H as [Hev Hlog].
  unfold home_after in *. cbn [fold_left]. rewrite IH by assumption.
  now destruct ev.
Qed.

Lemma try_fetch_sets_nothing (fetched : settled response)
    (onSuccess : option callback) :
  forallb sets_nothing (fst (try_fetch fetched onSuccess)) = true.
Proof.
  unfold try_fetch. destruct fetched as [r|err]; [|reflexivity].
  destruct (negb _ || negb _).
  - now destruct (text_body r).
  - destruct (negb (ok r)); [reflexivity|].
    destruct (json_body r); [|reflexivity]. now destruct onSuccess.
Qed.

(** X12. After a submit the form is never shown bare: whatever the
    network answers and whatever [onSuccess] does, the handler leaves
    [Home] either analyzing, with no error (the spinner), or not
    analyzing with a truthy error (the form under its error box). *)
Theorem submit_ends_in_spinner_or_error_box
    (fetched : settled response) (onSuccess : option callback)
    (s0 : home_state) :
  let s := home_after s0 (fst (handleSubmit fetched onSuccess)) in
  (isAnalyzing s = true /\ error s = VNull /\ Home_view s = Spinner)
  \/ (isAnalyzing s = false /\ truthy (error s) = true
      /\ Home_view s = Form (Some (error s))).
Proof.
  unfold handleSubmit.
  pose proof (try_fetch_sets_nothing fetched onSuccess) as Hq.
  destruct (try_fetch fetched onSuccess) as [log [err|]]; cbn [fst] in *.
  - destruct (readable err); cbn [fst].
    + right. rewrite !home_after_app, (home_after_neutral log Hq).
      cbn. unfold or_else.
      destruct (truthy (own err "message")) eqn:Ht; cbn; rewrite ?Ht; auto.
    + left. rewrite !home_after_app, (home_after_neutral log Hq). cbn. auto.
  - left. rewrite home_after_app, (home_after_neutral log Hq). cbn. auto.
Qed.

Lemma try_fetch_onSuccess (fetched : settled response)
    (onSuccess : option callback) (v : value) :
  In (onSuccess_called v) (fst (try_fetch fetched onSuccess))
  <-> exists r call ct,
        fetched = Resolved r /\ onSuccess = Some call
        /\ content_type r = Some ct /\ contains ct "application/json"
        /\ ok r = true /\ json_body r = Resolved v.
Proof.
  unfold try_fetch. split.
  - destruct fetched as [r|err]; [|intros []].
    destruct (content_type r) as [ct|] eqn:Ect; cbn [truthy negb orb].
    + destruct (ct =? EmptyString)%string eqn:Ee; cbn [negb orb].
      * destruct (text_body r); cbn; intuition discriminate.
      * destruct (includes ct "application/json") eqn:Ei; cbn [negb].
        -- destruct (ok r) eqn:Eok; cbn [negb]; [|intros []].
           destruct (json_body r) as [res|err] eqn:Ej; [|intros []].
           destruct onSuccess as [call|]; [|intros []].
           cbn. intros [E|[]]. inversion E; subst.
           exists r, call, ct. apply includes_contains in Ei. auto 7.
        -- destruct (text_body r); cbn; intuition discriminate.
    + destruct (text_body r); cbn; intuition discriminate.
  - intros (r & call & ct & -> & -> & Ect & Hc & Eok & Ej).
    rewrite Ect, Eok, Ej. apply includes_contains in Hc. rewrite Hc.
    cbn [truthy]. destruct ct as [|c ct].
    + discriminate Hc.
    + cbn. now left.
Qed.

(** X13. [onSuccess] is handed the parsed result exactly when the
    request resolves, the content type of the response contains
    [application/json] (anywhere: a charset suffix is fine), the response
    is [ok], its body parses, and [Home] was given an [onSuccess]. *)
Theorem onSuccess_gets_exactly_the_ok_json_answers
    (fetched : settled response) (onSuccess : option callback) (v : value) :
  In (onSuccess_called v) (fst (handleSubmit fetched onSuccess))
  <-> exists r call ct,
        fetched = Resolved r /\ onSuccess = Some call
        /\ content_type r = Some ct /\ contains ct "application/json"
        /\ ok r = true /\ json_body r = Resolved v.
Proof.
  rewrite <- try_fetch_onSuccess. unfold handleSubmit.
  destruct (try_fetch fetched onSuccess) as [log [err|]]; cbn [fst].
  - destruct (readable err); cbn [fst]; rewrite !in_app_iff; cbn [In];
      intuition discriminate.
  - rewrite in_app_iff. cbn [In]. intuition discriminate.
Qed.

(** X14. The content type is checked before the status: a response
    whose content type is missing or does not contain [application/json]
    is reported as HTML sent by the backend, whatever its status (a 500
    with an HTML body included), its body is never parsed, and
    [onSuccess] is not called. *)
Theorem html_answer_is_reported_whatever_the_status
    (r : response) (onSuccess : option callback) (t : string) :
  (forall ct, content_type r = Some ct -> ~ contains ct "application/json") ->
  text_body r = Resolved t ->
  handleSubmit (Resolved r) onSuccess
  = (submit_prologue
       ++ [console_error "Backend sent HTML instead of JSON:"
             (VStr (substring 0 100 t));
           console_error "Analysis Failed:" (Error html_message);
           setError (VStr html_message);
           setIsAnalyzing false],
     Normal tt)
  /\ Home_view (home_after home_initial (fst (handleSubmit (Resolved r) onSuccess)))
     = Form (Some (VStr html_message)).
Proof.
  intros Hct Ht.
  assert (E : handleSubmit (Resolved r) onSuccess
              = (submit_prologue
                   ++ [console_error "Backend sent HTML instead of JSON:"
                         (VStr (substring 0 100 t));
                       console_error "Analysis Failed:" (Error html_message);
                       setError (VStr html_message);
                       setIsAnalyzing false],
                 Normal tt)).
  { unfold handleSubmit, try_fetch.
    assert (Hgate : negb (truthy (match content_type r with
                                  | Some ct => VStr ct
                                  | None => VNull
                                  end))
                    || negb (match content_type r with
                             | Some ct => includes ct "application/json"
                             | None => false
                             end) = true).
    { destruct (content_type r) as [ct|]; [|reflexivity].
      destruct (includes ct "application/json") eqn:Ei.
      - apply includes_contains in Ei. exfalso. now apply (Hct ct).
      - apply orb_true_r. }
    rewrite Hgate, Ht. reflexivity. }
  split; [exact E|]. rewrite E. reflexivity.
Qed.

Lemma html_answer_is_reported_whatever_the_status_witness :
  Home_view
    (home_after home_initial
       (fst (handleSubmit
               (Resolved {| content_type := Some "text/html"%string;
                            ok := false; status := 500;
                            statusText := "Internal Server Error";
                            text_body := Resolved "<!doctype html>"%string;
                            json_body := Rejected (Error "Unexpected token <") |})
               None)))
  = Form (Some (VStr html_message)).
Proof.
  refine (proj2 (html_answer_is_reported_whatever_the_status
                   {| content_type := Some "text/html"%string;
                      ok := false; status := 500;
                      statusText := "Internal Server Error";
                      text_body := Resolved "<!doctype html>"%string;
                      json_body := Rejected (Error "Unexpected token <") |}
                   None "<!doctype html>" _ eq_refl)).
  intros ct E H. inversion E; subst ct.
  apply includes_contains in H. discriminate H.
Defined.

(** * The application shell *)

Lemma App_data_is_kept (evs : list app_event) :
  forall s, data (fold_left App_on evs s) = data s.
Proof.
  induction evs as [|ev evs IH]; intros s; cbn [fold_left]; [reflexivity|].
  rewrite IH. now destruct ev.
Qed.

Lemma App_stops_loading (evs : list app_event) :
  evs <> [] -> forall s, loading (fold_left App_on evs s) = false.
Proof.
  induction evs as [|ev evs IH]; intros Hne s; [contradiction|].
  cbn [fold_left]. destruct evs as [|ev' evs'].
  - now destruct ev.
  - apply IH. discriminate.
Qed.

(** X15. A successful upload goes nowhere: [App] shows [Home] (once the
    splash screen is gone and [window.resultData] was falsy at mount)
    without an [onSuccess], so when the request succeeds with an ok JSON
    answer the handler calls nobody, reports no error and never resets
    [isAnalyzing]: [Home] stays on its spinner and [App] on [Home]. *)
Theorem successful_upload_leaves_the_spinner
    (window_resultData : value) (evs : list app_event)
    (r : response) (ct : string) (result : value) :
  truthy window_resultData = false ->
  evs <> [] ->
  content_type r = Some ct ->
  contains ct "application/json" ->
  ok r = true ->
  json_body r = Resolved result ->
  exists onSuccess,
    App_view (fold_left App_on evs (App_mount window_resultData App_initial))
    = Home_in_Layout onSuccess
    /\ handleSubmit (Resolved r) onSuccess = (submit_prologue, Normal tt)
    /\ Home_view (home_after home_initial submit_prologue) = Spinner.
Proof.
  intros Hw Hne Ect Hc Eok Ej. exists None.
  split; [|split].
  - unfold App_view. rewrite App_stops_loading by assumption.
    rewrite App_data_is_kept. unfold App_mount. rewrite Hw. reflexivity.
  - unfold handleSubmit, try_fetch. rewrite Ect, Eok, Ej.
    apply includes_contains in Hc. rewrite Hc.
    destruct ct as [|c ct'].
    + discriminate Hc.
    + reflexivity.
  - reflexivity.
Qed.

Lemma successful_upload_leaves_the_spinner_witness :
  exists onSuccess,
    App_view (fold_left App_on [timer_fired] (App_mount VUndefined App_initial))
    = Home_in_Layout onSuccess
    /\ handleSubmit
         (Resolved {| content_type := Some "application/json"%string;
                      ok := true; status := 200; statusText := "OK";
                      text_body := Resolved "{}"%string;
                      json_body := Resolved (VObj []) |})
         onSuccess
       = (submit_prologue, Normal tt)
    /\ Home_view (home_after home_initial submit_prologue) = Spinner.
Proof.
  apply (successful_upload_leaves_the_spinner VUndefined [timer_fired]
           {| content_type := Some "application/json"%string;
              ok := true; status := 200; statusText := "OK";
              text_body := Resolved "{}"%string;
              json_body := Resolved (VObj []) |}
           "application/json" (VObj []));
    try reflexivity.
  - discriminate.
  - exists EmptyString, EmptyString. reflexivity.
Defined.

(** ** The result page *)

Lemma optional_toFixed_2_completes (score : value) :
  (exists n, optional_toFixed_2 score = Normal n)
  <-> readable score = false \/ (exists x, score = VNum x).
Proof.
  destruct score; cbn; split;
    solve [ intros _; left; reflexivity
          | intros _; right; eexists; reflexivity
          | intros _; eexists; reflexivity
          | intros [p Hp]; discriminate Hp
          | intros [Hf | [x Hx]]; [discriminate Hf | discriminate Hx] ].
Qed.

Lemma example_terms_completes (flags : value) :
  (exists n, example_terms flags = Normal n)
  <-> negb (gt_zero (opt (opt flags "example_terms") "length"))
      || isArray (opt flags "example_terms") = true.
Proof.
  unfold example_terms. cbv zeta.
  destruct (gt_zero (opt (opt flags "example_terms") "length")); cbn [negb orb].
  - destruct (opt flags "example_terms"); cbn [isArray]; split;
      solve [ intros [p Hp]; discriminate Hp
            | discriminate
            | intros _; reflexivity
            | intros _; eexists; reflexivity ].
  - split; [reflexivity | intros _; eexists; reflexivity].
Qed.

Lemma charts_and_element (v : value) (n : node) :
  charts n = [] -> charts (and_element v n) = [].
Proof. intros Hn. unfold and_element. now destruct (truthy v). Qed.

Lemma charts_Badge (color : option string) (children : list node) :
  flat_map charts children = [] -> charts (Badge color children) = [].
Proof. intros Hc. unfold Badge. cbn [charts]. exact Hc. Qed.

Lemma charts_example_terms (flags : value) (n : node) :
  example_terms flags = Normal n -> charts n = [].
Proof.
  unfold example_terms. cbv zeta.
  destruct (gt_zero _); [destruct (opt flags "example_terms") |];
    intros H; inversion H; reflexivity.
Qed.

Lemma charts_social_analysis (phase1 : value) (n : node) :
  social_analysis phase1 = Normal n -> charts n = [].
Proof.
  unfold social_analysis. cbv zeta.
  destruct (example_terms _) as [terms | e] eqn:Ht; [| discriminate].
  intros H. inversion H. subst n. clear H.
  apply charts_example_terms in Ht.
  cbn [charts flat_map]. rewrite Ht.
  rewrite !charts_and_element by (apply charts_Badge; reflexivity).
  rewrite charts_Badge by reflexivity. reflexivity.
Qed.

Lemma charts_fallback_mode (phase1 : value) :
  charts (fallback_mode phase1) = [].
Proof.
  unfold fallback_mode. cbn [charts flat_map].
  rewrite charts_and_element by reflexivity. reflexivity.
Qed.

Lemma render_absent (cv : option canvas) (data : value) (type : string) :
  truthy data = false -> render cv data type = ret tt.
Proof.
  intros Hd. unfold render. destruct cv; [| reflexivity].
  now rewrite Hd.
Qed.

(** X16. When the result page can be built.  [Result] returns its tree
    exactly when the payload is falsy (the "No Data Available" notice), or
    when [phase1] can be read, its [sentiment_score] is absent, [null] or
    a number, and, should [social_context_ok] be truthy and the example
    terms have a length above zero, the example terms are an array.  In
    every other case building the tree throws. *)
Theorem Result_completes_iff (resultData : value) (onBack : bool) :
  let phase1 := own resultData "phase1" in
  let terms := opt (own phase1 "social_context_flags") "example_terms" in
  (exists page, Result resultData onBack = Normal page)
  <-> truthy resultData = false
      \/ (readable phase1 = true
          /\ (readable (opt phase1 "sentiment_score") = false
              \/ exists x, opt phase1 "sentiment_score" = VNum x)
          /\ (truthy (own phase1 "social_context_ok") = true ->
              gt_zero (opt terms "length") = true ->
              isArray terms = true)).
Proof.
  intros phase1 terms. unfold Result. cbv zeta. fold phase1.
  destruct (truthy resultData); cbn [negb].
  2: { split; [intros _; left; reflexivity | intros _; eexists; reflexivity]. }
  pose proof (optional_toFixed_2_completes (opt phase1 "sentiment_score")) as Hs.
  pose proof (example_terms_completes (own phase1 "social_context_flags")) as Ht.
  fold terms in Ht.
  unfold member, get. split.
  - intros [page Hp]. right.
    destruct (optional_toFixed_2 _) as [score | e]; [| discriminate Hp].
    destruct (readable phase1); cbn [outcome ret throw snd] in Hp;
      [| discriminate Hp].
    split; [reflexivity |]. split; [apply Hs; eexists; reflexivity |].
    intros Hok Hlen. rewrite Hok in Hp.
    unfold social_analysis in Hp. cbv zeta in Hp.
    destruct (example_terms _) as [t | e]; [| discriminate Hp].
    destruct Ht as [Ht _]. specialize (Ht (ex_intro _ t eq_refl)).
    rewrite Hlen in Ht. exact Ht.
  - intros [H | (Hr & Hsc & Hterms)]; [discriminate H |].
    apply Hs in Hsc. destruct Hsc as [score Hsc]. rewrite Hsc, Hr.
    cbn [outcome ret throw snd].
    destruct (truthy (own phase1 "social_context_ok"));
      [| eexists; reflexivity].
    unfold social_analysis. cbv zeta.
    assert (Hex : exists t, example_terms (own phase1 "social_context_flags")
                            = Normal t).
    { apply Ht. destruct (gt_zero (opt terms "length")); [| reflexivity].
      now rewrite Hterms. }
    destruct Hex as [t Hex]. rewrite Hex. eexists; reflexivity.
Qed.

(** X17. A payload without [phase1] crashes the page.  The header fields
    are read with [?.], but [phase1.social_context_ok] is not: for a
    truthy payload whose [phase1] is [undefined] or [null], building the
    tree throws the [TypeError] of reading a property of [undefined] or
    [null], whatever else the payload holds. *)
Theorem missing_phase1_crashes_the_page (resultData : value) (onBack : bool) :
  truthy resultData = true ->
  readable (own resultData "phase1") = false ->
  Result resultData onBack = Throw cannot_read.
Proof.
  intros Hd Hp. unfold Result. rewrite Hd. cbn [negb].
  unfold opt, member, get. rewrite Hp. reflexivity.
Qed.

Lemma missing_phase1_crashes_the_page_witness :
  Result (VObj [("phase2"%string, VObj [])]) false = Throw cannot_read.
Proof.
  apply (missing_phase1_crashes_the_page (VObj [("phase2"%string, VObj [])]) false);
    reflexivity.
Defined.

(** X18. The charts of the result page.  A page that is built from a
    truthy payload holds exactly three charts, in this order: the line
    graph of [phase2?.timeline_data], the bar chart of
    [phase2?.stats?.averages] and the bar chart of
    [phase2?.stats?.variability].  When [phase2] is [undefined] or
    [null], the effect of each of them makes no call on its canvas and
    completes. *)
Theorem charts_of_the_result_page
    (resultData : value) (onBack : bool) (page : node) :
  truthy resultData = true ->
  Result resultData onBack = Normal page ->
  let phase2 := own resultData "phase2" in
  charts page
  = [(opt phase2 "timeline_data", "motion"%string);
     (opt (opt phase2 "stats") "averages", "bar"%string);
     (opt (opt phase2 "stats") "variability", "bar"%string)]
  /\ (readable phase2 = false ->
      forall canvasRef data type,
        In (data, type) (charts page) ->
        ChartCanvas canvasRef data (Some type) = ([], Normal tt)).
Proof.
  intros Hd Hr phase2.
  assert (Hc : charts page
               = [(opt phase2 "timeline_data", "motion"%string);
                  (opt (opt phase2 "stats") "averages", "bar"%string);
                  (opt (opt phase2 "stats") "variability", "bar"%string)]).
  { unfold Result in Hr. cbv zeta in Hr. rewrite Hd in Hr. cbn [negb] in Hr.
    destruct (optional_toFixed_2 _) as [score | e] eqn:Hs; [| discriminate Hr].
    destruct (member _ _) as [social_context_ok | e]; [| discriminate Hr].
    destruct (if truthy social_context_ok then _ else _)
      as [social | e] eqn:Hsoc; [| discriminate Hr].
    assert (Hsocial : charts social = []).
    { destruct (truthy social_context_ok).
      - now apply charts_social_analysis in Hsoc.
      - inversion Hsoc. apply charts_fallback_mode. }
    assert (Hscore : charts score = []).
    { destruct (opt (own resultData "phase1") "sentiment_score");
        inversion Hs; reflexivity. }
    inversion Hr. subst page. clear Hr.
    cbn [charts flat_map app legend_entry]. rewrite Hsocial, Hscore.
    reflexivity. }
  split; [exact Hc |].
  intros Hp canvasRef data type Hin. rewrite Hc in Hin.
  unfold opt in Hin. rewrite Hp in Hin. cbn [readable] in Hin.
  unfold ChartCanvas.
  destruct Hin as [H | [H | [H | []]]]; inversion H; subst;
    now apply render_absent.
Qed.

Lemma charts_of_the_result_page_witness :
  exists page,
    Result (VObj [("phase1"%string, VObj [])]) false = Normal page
    /\ charts page
       = [(VUndefined, "motion"%string); (VUndefined, "bar"%string);
          (VUndefined, "bar"%string)].
Proof.
  eexists. split; [reflexivity |].
  exact (proj1 (charts_of_the_result_page
                  (VObj [("phase1"%string, VObj [])]) false _
                  eq_refl eq_refl)).
Defined.
